(** * USAVibes map front end (frontend/app.js): layer refresh and presentation

    A shallow embedding of the script that drives the map page: the layer
    registry ([clusters], [clearLayer], [ensureLayer]), the data client
    ([fetchJSON]), the two feature-to-marker paths
    ([addGeoJSONPointsToCluster] with the popup of [loadBrand], and the
    [forEach] body of [loadQuakes]) and the [refresh] sequence.

    JavaScript values that reach the script through [Response.json()] are
    modelled by [JSValue]; the host objects the script drives (the status
    element, the Leaflet map and its cluster groups, the console, the
    network) are fields of [Page], threaded through a completion monad
    [Eff] whose abrupt completion is a thrown [JSError]. *)

From Stdlib Require Import ZArith QArith Qminmax Qabs Qpower Qround String Ascii List Bool Lia.
From Stdlib Require Import DecimalString.
From Stdlib Require DecimalFacts DecimalPos DecimalN.
Import ListNotations.
Local Open Scope string_scope.
Local Open Scope Z_scope.

(** ** Numbers

    A finite Number is carried as the decimal [mant * 10 ^ expo] it denotes:
    every JSON numeric literal and every literal of the script is such a
    decimal, and the script only doubles, compares and prints numbers.
    Rounding to binary64 is outside the model, and [-0] is identified with
    [0] (the script never divides and never calls [Object.is]). Where a
    property depends on a number being read or printed exactly, it is
    stated for the numbers binary64 keeps as they are ([short_decimal],
    [MAX_SAFE_INTEGER] below). *)

Record Dec : Type := mkDec { mant : Z; expo : Z }.

Inductive JSNum : Type :=
| NaN
| Inf (negative : bool)
| Fin (d : Dec).

Definition pow10 (n : Z) : Z := 10 ^ n.

(** The rational a decimal denotes. *)
Definition Dval (d : Dec) : Q := inject_Z (mant d) * Qpower 10 (expo d).

(** Canonical form: no trailing zero in the mantissa, zero is [0e0]. *)
Fixpoint strip_zeros (fuel : nat) (m e : Z) : Dec :=
  match fuel with
  | O => mkDec m e
  | S fuel' =>
      if (m =? 0) then mkDec 0 0
      else if (m mod 10 =? 0) then strip_zeros fuel' (m / 10) (e + 1)
      else mkDec m e
  end.

Definition norm (d : Dec) : Dec :=
  strip_zeros (S (Z.to_nat (Z.log2 (Z.abs (mant d))))) (mant d) (expo d).

Definition dec (m e : Z) : JSNum := Fin (norm (mkDec m e)).
Definition int (n : Z) : JSNum := dec n 0.

Definition Dmul (a b : Dec) : Dec :=
  norm (mkDec (mant a * mant b) (expo a + expo b)).

Definition Dleb (a b : Dec) : bool := Qle_bool (Dval a) (Dval b).
Definition Dis_zero (a : Dec) : bool := mant a =? 0.
Definition Dis_neg (a : Dec) : bool := mant a <? 0.

(** [x * y] on Numbers (Number::multiply). *)
Definition num_mul (x y : JSNum) : JSNum :=
  match x, y with
  | NaN, _ | _, NaN => NaN
  | Inf sx, Inf sy => Inf (xorb sx sy)
  | Inf sx, Fin d | Fin d, Inf sx =>
      if Dis_zero d then NaN else Inf (xorb sx (Dis_neg d))
  | Fin a, Fin b => Fin (Dmul a b)
  end.

(** [x <= y] for operands that are not NaN. *)
Definition num_leb (x y : JSNum) : bool :=
  match x, y with
  | NaN, _ | _, NaN => false
  | Inf true, _ => true
  | _, Inf false => true
  | Inf false, _ => false
  | _, Inf true => false
  | Fin a, Fin b => Dleb a b
  end.

(** [Math.min(x, y)] and [Math.max(x, y)]: NaN if either argument is. *)
Definition Math_min (x y : JSNum) : JSNum :=
  match x, y with
  | NaN, _ | _, NaN => NaN
  | _, _ => if num_leb x y then x else y
  end.

Definition Math_max (x y : JSNum) : JSNum :=
  match x, y with
  | NaN, _ | _, NaN => NaN
  | _, _ => if num_leb x y then y else x
  end.

(** *** Number::toString (radix 10) *)

Definition digits_of (n : Z) : string :=
  NilZero.string_of_uint (N.to_uint (Z.to_N n)).

Fixpoint zeros (n : nat) : string :=
  match n with O => "" | S n' => String "0" (zeros n') end.

Fixpoint take (n : nat) (s : string) : string :=
  match n, s with
  | S n', String c s' => String c (take n' s')
  | _, _ => ""
  end.

Fixpoint drop (n : nat) (s : string) : string :=
  match n, s with
  | S n', String _ s' => drop n' s'
  | _, _ => s
  end.

(** Positive decimal [s * 10 ^ e] with digit string [s] of length [k];
    [n = e + k] is the position of the decimal point. *)
Definition pos_to_string (m e : Z) : string :=
  let s := digits_of m in
  let k := Z.of_nat (String.length s) in
  let n := e + k in
  if (k <=? n) && (n <=? 21) then s ++ zeros (Z.to_nat (n - k))
  else if (0 <? n) && (n <=? 21) then
    take (Z.to_nat n) s ++ "." ++ drop (Z.to_nat n) s
  else if (-6 <? n) && (n <=? 0) then
    "0." ++ zeros (Z.to_nat (- n)) ++ s
  else
    let x := n - 1 in
    let sign := if x <? 0 then "-" else "+" in
    let head := if k =? 1 then s else take 1 s ++ "." ++ drop 1 s in
    head ++ "e" ++ sign ++ digits_of (Z.abs x).

Definition NumberToString (x : JSNum) : string :=
  match x with
  | NaN => "NaN"
  | Inf false => "Infinity"
  | Inf true => "-Infinity"
  | Fin d =>
      let d' := norm d in
      if mant d' =? 0 then "0"
      else if mant d' <? 0 then "-" ++ pos_to_string (- mant d') (expo d')
      else pos_to_string (mant d') (expo d')
  end.

(** *** StringToNumber (the grammar of [Number(string)])

    Strings are sequences of one-byte characters; the white space of the
    grammar is restricted accordingly to TAB, LF, VT, FF, CR and SP. *)

Definition is_space (c : ascii) : bool :=
  let n := nat_of_ascii c in
  ((9 <=? n) && (n <=? 13))%nat || (n =? 32)%nat.

Definition digit_val (c : ascii) : option Z :=
  let n := Z.of_nat (nat_of_ascii c) in
  if (48 <=? n) && (n <=? 57) then Some (n - 48)
  else if (97 <=? n) && (n <=? 102) then Some (n - 87)
  else if (65 <=? n) && (n <=? 70) then Some (n - 55)
  else None.

Definition is_digit (radix : Z) (c : ascii) : bool :=
  match digit_val c with Some v => v <? radix | None => false end.

Fixpoint drop_spaces (l : list ascii) : list ascii :=
  match l with
  | c :: l' => if is_space c then drop_spaces l' else l
  | [] => []
  end.

Definition trim (l : list ascii) : list ascii :=
  rev (drop_spaces (rev (drop_spaces l))).

(** The longest prefix of digits and what follows it. *)
Fixpoint span_digits (radix : Z) (l : list ascii) : list ascii * list ascii :=
  match l with
  | c :: l' =>
      if is_digit radix c
      then let (ds, rest) := span_digits radix l' in (c :: ds, rest)
      else ([], l)
  | [] => ([], [])
  end.

Definition digits_value (radix : Z) (ds : list ascii) : Z :=
  fold_left (fun acc c =>
               acc * radix + match digit_val c with Some v => v | None => 0 end)
            ds 0.

Definition radix_literal (radix : Z) (l : list ascii) : JSNum :=
  match span_digits radix l with
  | ((_ :: _) as ds, []) => int (digits_value radix ds)
  | _ => NaN
  end.

(** ExponentPart, optional: [None] when what follows the mantissa is not one. *)
Definition exponent_part (l : list ascii) : option Z :=
  match l with
  | [] => Some 0
  | c :: l' =>
      if (Ascii.eqb c "e" || Ascii.eqb c "E")%bool then
        let (neg, l'') :=
          match l' with
          | "-"%char :: r => (true, r)
          | "+"%char :: r => (false, r)
          | _ => (false, l')
          end in
        match span_digits 10 l'' with
        | ((_ :: _) as ds, []) =>
            Some (if neg then - digits_value 10 ds else digits_value 10 ds)
        | _ => None
        end
      else None
  end.

Definition unsigned_decimal (neg : bool) (l : list ascii) : JSNum :=
  if list_eq_dec ascii_dec l (list_ascii_of_string "Infinity") then Inf neg
  else
    let (ip, r1) := span_digits 10 l in
    let (fp, r2) :=
      match r1 with
      | "."%char :: r => span_digits 10 r
      | _ => ([], r1)
      end in
    match (ip ++ fp)%list with
    | [] => NaN
    | ds =>
        match exponent_part r2 with
        | Some e =>
            let m := digits_value 10 ds in
            dec (if neg then - m else m) (e - Z.of_nat (length fp))
        | None => NaN
        end
    end.

Definition StringToNumber (s : string) : JSNum :=
  match trim (list_ascii_of_string s) with
  | [] => int 0
  | "0"%char :: x :: l =>
      if (Ascii.eqb x "x" || Ascii.eqb x "X")%bool then radix_literal 16 l
      else if (Ascii.eqb x "o" || Ascii.eqb x "O")%bool then radix_literal 8 l
      else if (Ascii.eqb x "b" || Ascii.eqb x "B")%bool then radix_literal 2 l
      else unsigned_decimal false ("0"%char :: x :: l)
  | "-"%char :: l => unsigned_decimal true l
  | "+"%char :: l => unsigned_decimal false l
  | l => unsigned_decimal false l
  end.

(** ** Values and abrupt completion *)

Inductive ErrorClass : Type := EError | ETypeError | ESyntaxError | EDOMException.

Record JSError : Type := mkError { ename : ErrorClass; message : string }.

Inductive Completion (A : Type) : Type :=
| Normal (a : A)
| Throw (e : JSError).
Arguments Normal {A} a.
Arguments Throw {A} e.

Definition cbind {A B} (c : Completion A) (k : A -> Completion B) : Completion B :=
  match c with
  | Normal a => k a
  | Throw e => Throw e
  end.

Declare Scope comp_scope.
Delimit Scope comp_scope with comp.
Notation "x <- c ;; k" := (cbind c (fun x => k))
  (at level 61, c at next level, right associativity) : comp_scope.
Notation "' pat <- c ;; k" := (cbind c (fun x => match x with pat => k end))
  (at level 61, pat pattern, c at next level, right associativity) : comp_scope.

(** What [Response.json()] can deliver: the JSON data model plus
    [undefined], which property reads produce. An object is its list of
    own properties, first binding of a name first. *)
#[warnings="-register-all"] Inductive JSValue : Type :=
| JUndefined
| JNull
| JBool (b : bool)
| JNum (n : JSNum)
| JStr (s : string)
| JArr (elems : list JSValue)
| JObj (props : list (string * JSValue)).

Fixpoint lookup (name : string) (props : list (string * JSValue)) : option JSValue :=
  match props with
  | [] => None
  | (k, v) :: rest => if String.eqb k name then Some v else lookup name rest
  end.

Definition has_own (name : string) (props : list (string * JSValue)) : bool :=
  match lookup name props with Some _ => true | None => false end.

Definition is_nullish (v : JSValue) : bool :=
  match v with JUndefined | JNull => true | _ => false end.

(** ToBoolean. *)
Definition truthy (v : JSValue) : bool :=
  match v with
  | JUndefined | JNull => false
  | JBool b => b
  | JNum NaN => false
  | JNum (Inf _) => true
  | JNum (Fin d) => negb (Dis_zero d)
  | JStr s => negb (String.eqb s "")
  | JArr _ | JObj _ => true
  end.

(** Errors the engine itself raises. Their message texts follow V8 and no
    property below depends on them. *)
Definition TypeError (msg : string) : JSError := mkError ETypeError msg.

(** [v.name]: a TypeError on [undefined] and [null]; an own property of an
    object; [length] of an array or a string; [undefined] for every other
    name the script reads ([features], [geometry], [type], [coordinates],
    [properties], [name], [id], [mag], [place], [time]). *)
Definition getProp (v : JSValue) (name : string) : Completion JSValue :=
  match v with
  | JUndefined =>
      Throw (TypeError ("Cannot read properties of undefined (reading '"
                        ++ name ++ "')"))
  | JNull =>
      Throw (TypeError ("Cannot read properties of null (reading '"
                        ++ name ++ "')"))
  | JObj props =>
      Normal (match lookup name props with Some x => x | None => JUndefined end)
  | JArr l =>
      Normal (if String.eqb name "length"
              then JNum (int (Z.of_nat (List.length l))) else JUndefined)
  | JStr s =>
      Normal (if String.eqb name "length"
              then JNum (int (Z.of_nat (String.length s))) else JUndefined)
  | JBool _ | JNum _ => Normal JUndefined
  end.

(** [v?.name] *)
Definition optProp (v : JSValue) (name : string) : Completion JSValue :=
  if is_nullish v then Normal JUndefined else getProp v name.

(** [a || b] and [a ?? b] with an already evaluated, effect-free [b]. *)
Definition js_or (a b : JSValue) : JSValue := if truthy a then a else b.
Definition js_nullish (a b : JSValue) : JSValue := if is_nullish a then b else a.

(** [a !== 'lit'] for a string literal. *)
Definition strict_ne_str (a : JSValue) (lit : string) : bool :=
  match a with
  | JStr s => negb (String.eqb s lit)
  | _ => true
  end.

Definition cannot_convert : JSError :=
  TypeError "Cannot convert object to primitive value".

Fixpoint join_with (sep : string) (parts : list string) : string :=
  match parts with
  | [] => ""
  | [p] => p
  | p :: rest => p ++ sep ++ join_with sep rest
  end.

(** ToString, as a template literal applies it. An object parsed from JSON
    prints through [Object.prototype.toString] unless an own [toString]
    property (never callable in JSON data) shadows it; an array prints
    through [join]. *)
Fixpoint ToString (v : JSValue) : Completion string :=
  match v with
  | JUndefined => Normal "undefined"
  | JNull => Normal "null"
  | JBool true => Normal "true"
  | JBool false => Normal "false"
  | JNum n => Normal (NumberToString n)
  | JStr s => Normal s
  | JObj props =>
      if has_own "toString" props then Throw cannot_convert
      else Normal "[object Object]"
  | JArr l =>
      cbind ((fix elems (l : list JSValue) : Completion (list string) :=
                match l with
                | [] => Normal []
                | x :: l' =>
                    cbind (if is_nullish x then Normal "" else ToString x)
                      (fun sx => cbind (elems l') (fun sl => Normal (sx :: sl)))
                end) l)
            (fun parts => Normal (join_with "," parts))
  end.

(** ToNumber, as [Number(v)] and the operands of [*] apply it. An object
    goes through [valueOf] (which returns the object itself) and then
    [toString]. *)
Definition ToNumber (v : JSValue) : Completion JSNum :=
  match v with
  | JUndefined => Normal NaN
  | JNull => Normal (int 0)
  | JBool true => Normal (int 1)
  | JBool false => Normal (int 0)
  | JNum n => Normal n
  | JStr s => Normal (StringToNumber s)
  | JArr _ | JObj _ => cbind (ToString v) (fun s => Normal (StringToNumber s))
  end.

Definition string_chars (s : string) : list JSValue :=
  map (fun c => JStr (String c "")) (list_ascii_of_string s).

(** [const [a, b] = v]: the first two items the iterator of [v] yields,
    [undefined] past its end; only arrays and strings are iterable here. *)
Definition destructure2 (v : JSValue) : Completion (JSValue * JSValue) :=
  match v with
  | JArr l => Normal (nth 0 l JUndefined, nth 1 l JUndefined)
  | JStr s =>
      let l := string_chars s in Normal (nth 0 l JUndefined, nth 1 l JUndefined)
  | _ => Throw (TypeError "object is not iterable")
  end.

(** [x.toFixed(5)] *)
Definition toFixed5 (x : JSNum) : string :=
  match x with
  | NaN | Inf _ => NumberToString x
  | Fin d =>
      if Qle_bool (inject_Z (pow10 21)) (Qabs (Dval d)) then NumberToString x
      else
        let m := Z.abs (mant d) in
        let e := expo d + 5 in
        let n := if 0 <=? e then m * pow10 e
                 else (2 * m + pow10 (- e)) / (2 * pow10 (- e)) in
        let ds := digits_of n in
        let k := String.length ds in
        let ds := if (k <=? 5)%nat then zeros (6 - k)%nat ++ ds else ds in
        let k := String.length ds in
        (if mant d <? 0 then "-" else "") ++
        take (k - 5)%nat ds ++ "." ++ drop (k - 5)%nat ds
  end.

(** ** The page: DOM controls, Leaflet map and cluster groups, network *)

(** The property names of the [clusters] object literal. *)
Inductive ClusterKey : Type := mcd | starbucks | dg | quakes.

(** One slot per cluster key, as the object literal has them. *)
Record PerKey (A : Type) : Type := mkPerKey
  { at_mcd : A; at_starbucks : A; at_dg : A; at_quakes : A }.
Arguments mkPerKey {A}.
Arguments at_mcd {A}.
Arguments at_starbucks {A}.
Arguments at_dg {A}.
Arguments at_quakes {A}.

Definition get {A} (k : ClusterKey) (t : PerKey A) : A :=
  match k with
  | mcd => at_mcd t
  | starbucks => at_starbucks t
  | dg => at_dg t
  | quakes => at_quakes t
  end.

Definition set {A} (k : ClusterKey) (v : A) (t : PerKey A) : PerKey A :=
  match k with
  | mcd => mkPerKey v (at_starbucks t) (at_dg t) (at_quakes t)
  | starbucks => mkPerKey (at_mcd t) v (at_dg t) (at_quakes t)
  | dg => mkPerKey (at_mcd t) (at_starbucks t) v (at_quakes t)
  | quakes => mkPerKey (at_mcd t) (at_starbucks t) (at_dg t) v
  end.

(** What [L.marker] and [L.circleMarker] were given. Leaflet's own
    treatment of the coordinates is outside the model: the constructors
    record their arguments. Leaflet takes a pair of finite numbers as it
    is ([plain_position] below); what it does with anything else is not
    described here. *)
Inductive Shape : Type :=
| Pin
| Circle (radius weight fillOpacity : JSNum).

Record Marker : Type := mkMarker
  { shape : Shape; lat : JSValue; lon : JSValue; popup : option string }.

Record Bounds : Type := mkBounds
  { south : JSNum; west : JSNum; north : JSNum; east : JSNum }.

Record Page : Type := mkPage
  { (* layerMcd, layerStar, layerDG, layerQuakes: the [checked] flags *)
    checked : PerKey bool;
    qHours : string;                    (* qHours.value *)
    qMinMag : string;                   (* qMinMag.value *)
    bounds : Bounds;                    (* map.getBounds() *)
    status : string;                    (* statusEl.textContent *)
    clusters : PerKey (list Marker);    (* markers of each cluster group *)
    mapLayers : PerKey bool;            (* map.hasLayer(clusters[key]) *)
    console : list JSError;             (* console.error calls, oldest first *)
    requests : list string }.           (* urls given to fetch, oldest first *)

Definition with_status (msg : string) (p : Page) : Page :=
  mkPage (checked p) (qHours p) (qMinMag p) (bounds p) msg
         (clusters p) (mapLayers p) (console p) (requests p).

Definition with_clusters (c : PerKey (list Marker)) (p : Page) : Page :=
  mkPage (checked p) (qHours p) (qMinMag p) (bounds p) (status p)
         c (mapLayers p) (console p) (requests p).

Definition with_mapLayers (m : PerKey bool) (p : Page) : Page :=
  mkPage (checked p) (qHours p) (qMinMag p) (bounds p) (status p)
         (clusters p) m (console p) (requests p).

Definition with_console (c : list JSError) (p : Page) : Page :=
  mkPage (checked p) (qHours p) (qMinMag p) (bounds p) (status p)
         (clusters p) (mapLayers p) c (requests p).

Definition with_requests (r : list string) (p : Page) : Page :=
  mkPage (checked p) (qHours p) (qMinMag p) (bounds p) (status p)
         (clusters p) (mapLayers p) (console p) r.

(** The outcome of [fetch(url)]: the promise rejects (no response at all),
    or resolves to a response. What [json()] does with the body of a
    response: the text is not JSON and it rejects with a SyntaxError; the
    body cannot be read to its end (the connection drops, the request is
    aborted) and it rejects with the error [e] of the platform; or it
    resolves to the parsed value. *)
Inductive Body : Type :=
| Malformed (why : string)
| Unreadable (e : JSError)
| Json (v : JSValue).

Record Response : Type := mkResponse
  { ok : bool; statusCode : nat; statusText : string; body : Body }.

Inductive FetchResult : Type :=
| Rejected (e : JSError)
| Responded (r : Response).

(** What the script takes from its host: the origin it builds [API] from,
    the network, and the locale formatting of [new Date(t)]. *)
Record Env : Type := mkEnv
  { API : string;
    fetch : string -> FetchResult;
    dateToLocaleString : JSValue -> Completion string }.

(** Statements: a page in, a completion and the page after it out. *)
Definition Eff (A : Type) : Type := Page -> Completion A * Page.

Definition ret {A} (a : A) : Eff A := fun p => (Normal a, p).
Definition throw {A} (e : JSError) : Eff A := fun p => (Throw e, p).
Definition lift {A} (c : Completion A) : Eff A := fun p => (c, p).

Definition bind {A B} (m : Eff A) (k : A -> Eff B) : Eff B :=
  fun p =>
    match m p with
    | (Normal a, p') => k a p'
    | (Throw e, p') => (Throw e, p')
    end.

Declare Scope eff_scope.
Delimit Scope eff_scope with eff.
Notation "x <- c ;; k" := (bind c (fun x => k))
  (at level 61, c at next level, right associativity) : eff_scope.
Notation "' pat <- c ;; k" := (bind c (fun x => match x with pat => k end))
  (at level 61, pat pattern, c at next level, right associativity) : eff_scope.
Notation "c ;; k" := (bind c (fun _ => k))
  (at level 61, right associativity) : eff_scope.

(** [if (c) stmt] *)
Definition when (c : bool) (m : Eff unit) : Eff unit :=
  if c then m else ret tt.

(** [arr.forEach(callback)]: stops at the first callback that throws. *)
Fixpoint forEach (l : list JSValue) (callback : JSValue -> Eff unit) : Eff unit :=
  match l with
  | [] => ret tt
  | f :: l' => bind (callback f) (fun _ => forEach l' callback)
  end.

(** ** The script *)

Section Script.

Variable env : Env.

Local Open Scope eff_scope.

Definition setStatus (msg : string) : Eff unit :=
  fun p => (Normal tt, with_status msg p).

Definition getBBox (p : Page) : string :=
  let b := bounds p in
  let s := toFixed5 (south b) in
  let w := toFixed5 (west b) in
  let n := toFixed5 (north b) in
  let e := toFixed5 (east b) in
  s ++ "," ++ w ++ "," ++ n ++ "," ++ e.

Definition clearLayer (key : ClusterKey) (p : Page) : Page :=
  let p := with_clusters (set key [] (clusters p)) p in
  if get key (mapLayers p) then with_mapLayers (set key false (mapLayers p)) p
  else p.

Definition ensureLayer (key : ClusterKey) (p : Page) : Page :=
  if negb (get key (mapLayers p))
  then with_mapLayers (set key true (mapLayers p)) p
  else p.

(** [clusters[key].addLayer(m)] *)
Definition addLayer (key : ClusterKey) (m : Marker) : Eff unit :=
  fun p =>
    (Normal tt, with_clusters (set key (get key (clusters p) ++ [m])%list (clusters p)) p).

Definition fetchJSON (url : string) : Eff JSValue :=
  fun p =>
    let p := with_requests (requests p ++ [url])%list p in
    match fetch env url with
    | Rejected e => (Throw e, p)
    | Responded r =>
        if negb (ok r) then
          (Throw (mkError EError
                    (NumberToString (int (Z.of_nat (statusCode r))) ++ " "
                     ++ statusText r)), p)
        else
          match body r with
          | Malformed why => (Throw (mkError ESyntaxError why), p)
          | Unreadable e => (Throw e, p)
          | Json v => (Normal v, p)
          end
    end.

(** The callback of [addGeoJSONPointsToCluster] up to its [addLayer]:
    [None] is the early [return]. *)
Definition pointMarker (popupFn : option (JSValue -> Completion string))
    (f : JSValue) : Completion (option Marker) :=
  (g <- getProp f "geometry" ;;
   if negb (truthy g) then Normal None else
   t <- getProp g "type" ;;
   if strict_ne_str t "Point" then Normal None else
   c <- getProp g "coordinates" ;;
   '(lon, lat) <- destructure2 c ;;
   match popupFn with
   | Some fn => text <- fn f ;; Normal (Some (mkMarker Pin lat lon (Some text)))
   | None => Normal (Some (mkMarker Pin lat lon None))
   end)%comp.

Definition not_a_function : JSError :=
  TypeError "(gj.features || []).forEach is not a function".

(** [(features || []).forEach(callback)] where each callback run computes
    at most one marker and adds it to [clusters[key]]. *)
Definition forEachFeature (features : JSValue) (key : ClusterKey)
    (marker : JSValue -> Completion (option Marker)) : Eff unit :=
  match js_or features (JArr []) with
  | JArr l =>
      forEach l (fun f =>
        m <- lift (marker f) ;;
        match m with
        | Some m => addLayer key m
        | None => ret tt
        end)
  | _ => throw not_a_function
  end.

Definition addGeoJSONPointsToCluster (gj : JSValue) (clusterKey : ClusterKey)
    (popupFn : option (JSValue -> Completion string)) : Eff unit :=
  features <- lift (getProp gj "features") ;;
  forEachFeature features clusterKey (pointMarker popupFn).

(** [gj.features?.length || 0], printed. *)
Definition featureCount (gj : JSValue) : Completion string :=
  (features <- getProp gj "features" ;;
   len <- optProp features "length" ;;
   ToString (js_or len (JNum (int 0))))%comp.

(** The popup function [loadBrand] passes. *)
Definition brandPopup (f : JSValue) : Completion string :=
  (props <- getProp f "properties" ;;
   name0 <- optProp props "name" ;;
   let name := js_or name0 (JStr "Unknown") in
   sname <- ToString name ;;
   id0 <- optProp props "id" ;;
   sid <- ToString (js_or id0 (JStr "")) ;;
   Normal ("<b>" ++ sname ++ "</b><br><small>" ++ sid ++ "</small>"))%comp.

Definition loadBrand (brand : string) (clusterKey : ClusterKey) : Eff unit :=
  fun p =>
    let bbox := getBBox p in
    (setStatus ("Loading " ++ brand ++ "...") ;;
     gj <- fetchJSON (API env ++ "/api/osm/brand?brand=" ++ brand
                      ++ "&bbox=" ++ bbox) ;;
     addGeoJSONPointsToCluster gj clusterKey (Some brandPopup) ;;
     (fun p => (Normal tt, ensureLayer clusterKey p)) ;;
     count <- lift (featureCount gj) ;;
     setStatus ("Loaded " ++ brand ++ ": " ++ count)) p.

(** [Number(input.value || fallback)] *)
Definition numberOr (value : string) (fallback : JSNum) : Completion JSNum :=
  ToNumber (js_or (JStr value) (JNum fallback)).

(** [Math.max(4, Math.min(16, (mag * 2)))] *)
Definition quakeRadius (mag : JSValue) : Completion JSNum :=
  (m <- ToNumber mag ;;
   Normal (Math_max (int 4) (Math_min (int 16) (num_mul m (int 2)))))%comp.

(** The three texts the popup of a quake is built from. *)
Definition quakeMag (props : JSValue) : Completion JSValue :=
  (mag0 <- optProp props "mag" ;; Normal (js_nullish mag0 (JStr "?")))%comp.

Definition quakePlace (props : JSValue) : Completion JSValue :=
  (place0 <- optProp props "place" ;; Normal (js_nullish place0 (JStr "")))%comp.

Definition quakeTime (props : JSValue) : Completion string :=
  (t <- optProp props "time" ;;
   if truthy t then dateToLocaleString env t else Normal "")%comp.

(** The callback of the [forEach] in [loadQuakes] up to its [addLayer]. *)
Definition quakeMarker (f : JSValue) : Completion (option Marker) :=
  (g <- getProp f "geometry" ;;
   c <- optProp g "coordinates" ;;
   if negb (truthy c) then Normal None else
   '(lon, lat) <- destructure2 c ;;
   props <- getProp f "properties" ;;
   mag <- quakeMag props ;;
   place <- quakePlace props ;;
   time <- quakeTime props ;;
   radius <- quakeRadius mag ;;
   smag <- ToString mag ;;
   splace <- ToString place ;;
   Normal (Some (mkMarker (Circle radius (int 1) (dec 6 (-1))) lat lon
                   (Some ("<b>M " ++ smag ++ "</b><br>" ++ splace
                          ++ "<br><small>" ++ time ++ "</small>")))))%comp.

Definition loadQuakes : Eff unit :=
  fun p =>
    let bbox := getBBox p in
    (hours <- lift (numberOr (qHours p) (int 24)) ;;
     minmag <- lift (numberOr (qMinMag p) (dec 25 (-1))) ;;
     setStatus "Loading earthquakes..." ;;
     gj <- fetchJSON (API env ++ "/api/usgs/quakes?hours=" ++ NumberToString hours
                      ++ "&minmag=" ++ NumberToString minmag
                      ++ "&bbox=" ++ bbox) ;;
     features <- lift (getProp gj "features") ;;
     forEachFeature features quakes quakeMarker ;;
     (fun p => (Normal tt, ensureLayer quakes p)) ;;
     count <- lift (featureCount gj) ;;
     setStatus ("Loaded earthquakes: " ++ count)) p.

(** The [try] block of [refresh]. *)
Definition loadSelected : Eff unit :=
  fun p =>
    ((when (get mcd (checked p)) (loadBrand "mcdonalds" mcd)) ;;
     (fun p => when (get starbucks (checked p)) (loadBrand "starbucks" starbucks) p) ;;
     (fun p => when (get dg (checked p)) (loadBrand "dollargeneral" dg) p) ;;
     (fun p => when (get quakes (checked p)) loadQuakes p) ;;
     setStatus "Done.") p.

(** The four statements before the [try]. *)
Definition clearDeselected (p : Page) : Page :=
  let p := if negb (get mcd (checked p)) then clearLayer mcd p else p in
  let p := if negb (get starbucks (checked p)) then clearLayer starbucks p else p in
  let p := if negb (get dg (checked p)) then clearLayer dg p else p in
  let p := if negb (get quakes (checked p)) then clearLayer quakes p else p in
  p.

Definition console_error (e : JSError) (p : Page) : Page :=
  with_console (console p ++ [e])%list p.

Definition refresh (p : Page) : Page :=
  let p := clearDeselected p in
  match loadSelected p with
  | (Normal _, p') => p'
  | (Throw e, p') =>
      with_status ("Error: " ++ message e) (console_error e p')
  end.

End Script.

(** ** The random-location button *)

(** The [spots] table of the click handler: latitude, longitude, zoom. *)
Definition spots : list (JSNum * JSNum * JSNum) :=
  [ (dec 3405 (-2), dec (-11825) (-2), int 9);    (* LA *)
    (dec 4071 (-2), dec (-7400) (-2), int 10);    (* NYC *)
    (dec 4188 (-2), dec (-8763) (-2), int 10);    (* Chicago *)
    (dec 2976 (-2), dec (-9536) (-2), int 10);    (* Houston *)
    (dec 3974 (-2), dec (-10499) (-2), int 10);   (* Denver *)
    (dec 4761 (-2), dec (-12233) (-2), int 10);   (* Seattle *)
    (dec 2576 (-2), dec (-8019) (-2), int 11);    (* Miami *)
    (dec 3345 (-2), dec (-11207) (-2), int 10) ]. (* Phoenix *)

(** The handler up to its [map.setView([pick[0], pick[1]], pick[2])]: the
    three arguments it passes, for the value [random] that [Math.random()]
    returned. Scaling by the table length, a power of two, and taking the
    floor are exact on doubles, so a rational stands for the double. An
    index outside the table makes [pick] undefined and [pick[0]] throw. *)
Definition randomClick (random : Q) : Completion (JSNum * JSNum * JSNum) :=
  let i := Qfloor (random * inject_Z (Z.of_nat (List.length spots))) in
  match (if 0 <=? i then nth_error spots (Z.to_nat i) else None) with
  | Some pick => Normal pick
  | None => Throw (TypeError "Cannot read properties of undefined (reading '0')")
  end.

(** * Vocabulary of the properties *)

(** ** Pages, frames and loads *)

Definition all_keys : list ClusterKey := [mcd; starbucks; dg; quakes].

(** The datasets whose checkbox is ticked, in the order [refresh] visits them. *)
Definition selected (p : Page) : list ClusterKey :=
  filter (fun k => get k (checked p)) all_keys.

(** The controls the script only reads. *)
Definition same_inputs (p q : Page) : Prop :=
  checked q = checked p /\ qHours q = qHours p /\ qMinMag q = qMinMag p
  /\ bounds q = bounds p.

(** [m] relates every page to the page it leaves, however it completes. *)
Definition preserves {A} (R : Page -> Page -> Prop) (m : Eff A) : Prop :=
  forall p, R p (snd (m p)).

(** The completion of [m] does not depend on the page it starts from. *)
Definition pure_outcome {A} (m : Eff A) : Prop :=
  forall p q, fst (m p) = fst (m q).

(** Everything but the status line and the group [k] is as before. *)
Definition frame (k : ClusterKey) (p q : Page) : Prop :=
  same_inputs p q /\ console q = console p /\ requests q = requests p
  /\ forall k', k' <> k ->
       get k' (clusters q) = get k' (clusters p)
       /\ get k' (mapLayers q) = get k' (mapLayers p).

(** The statement [refresh] runs for a ticked checkbox. *)
Definition load (env : Env) (k : ClusterKey) : Eff unit :=
  match k with
  | mcd => loadBrand env "mcdonalds" mcd
  | starbucks => loadBrand env "starbucks" starbucks
  | dg => loadBrand env "dollargeneral" dg
  | quakes => loadQuakes env
  end.

(** [if (box.checked) await load] for each key of [ks], in order. *)
Fixpoint runLoads (env : Env) (ks : list ClusterKey) : Eff unit :=
  match ks with
  | [] => ret tt
  | k :: ks' =>
      fun p => bind (when (get k (checked p)) (load env k))
                    (fun _ => runLoads env ks') p
  end.

(** The number [Number(value || fallback)] denotes. *)
Definition effectiveNumber (value : string) (fallback : JSNum) : JSNum :=
  if String.eqb value "" then fallback else StringToNumber value.

Definition brand_url (env : Env) (brand : string) (p : Page) : string :=
  API env ++ "/api/osm/brand?brand=" ++ brand ++ "&bbox=" ++ getBBox p.

Definition quake_url (env : Env) (p : Page) : string :=
  API env ++ "/api/usgs/quakes?hours="
  ++ NumberToString (effectiveNumber (qHours p) (int 24))
  ++ "&minmag=" ++ NumberToString (effectiveNumber (qMinMag p) (dec 25 (-1)))
  ++ "&bbox=" ++ getBBox p.

(** The url the load for [k] asks for. *)
Definition request_url (env : Env) (p : Page) (k : ClusterKey) : string :=
  match k with
  | mcd => brand_url env "mcdonalds" p
  | starbucks => brand_url env "starbucks" p
  | dg => brand_url env "dollargeneral" p
  | quakes => quake_url env p
  end.

(** What follows the [await fetchJSON] in [loadBrand] and in [loadQuakes]. *)
Definition brandTail (brand : string) (k : ClusterKey) (gj : JSValue) : Eff unit :=
  bind (addGeoJSONPointsToCluster gj k (Some brandPopup)) (fun _ =>
  bind (fun p => (Normal tt, ensureLayer k p)) (fun _ =>
  bind (lift (featureCount gj)) (fun count =>
  setStatus ("Loaded " ++ brand ++ ": " ++ count)))).

Definition quakeTail (env : Env) (gj : JSValue) : Eff unit :=
  bind (lift (getProp gj "features")) (fun features =>
  bind (forEachFeature features quakes (quakeMarker env)) (fun _ =>
  bind (fun p => (Normal tt, ensureLayer quakes p)) (fun _ =>
  bind (lift (featureCount gj)) (fun count =>
  setStatus ("Loaded earthquakes: " ++ count))))).

Definition loadTail (env : Env) (k : ClusterKey) (gj : JSValue) : Eff unit :=
  match k with
  | mcd => brandTail "mcdonalds" mcd gj
  | starbucks => brandTail "starbucks" starbucks gj
  | dg => brandTail "dollargeneral" dg gj
  | quakes => quakeTail env gj
  end.

Definition loading_message (k : ClusterKey) : string :=
  match k with
  | mcd => "Loading mcdonalds..."
  | starbucks => "Loading starbucks..."
  | dg => "Loading dollargeneral..."
  | quakes => "Loading earthquakes..."
  end.

Definition is_normal {A} (c : Completion A) : bool :=
  match c with Normal _ => true | Throw _ => false end.

(** Does the load for [k] complete when started with the controls of [p]? *)
Definition load_ok (env : Env) (p : Page) (k : ClusterKey) : bool :=
  is_normal (fst (load env k p)).

(** The keys of [ks] up to and including the first whose load fails. *)
Fixpoint attempted (okf : ClusterKey -> bool) (ks : list ClusterKey) : list ClusterKey :=
  match ks with
  | [] => []
  | k :: ks' => if okf k then k :: attempted okf ks' else [k]
  end.

(** What [refresh] leaves when the load of [k] throws [e] from the page
    [pk] that the completed loads of the keys [pre] before it produced. *)
Definition failed_at (env : Env) (p : Page) (pre : list ClusterKey)
    (k : ClusterKey) (e : JSError) (pk : Page) : Prop :=
  status (refresh env p) = "Error: " ++ message e
  /\ String.prefix "Error:" (status (refresh env p)) = true
  /\ console (refresh env p) = (console p ++ [e])%list
  /\ requests (refresh env p) = (requests pk ++ [request_url env p k])%list
  /\ requests (refresh env p)
     = (requests p ++ map (request_url env p) (pre ++ [k]))%list
  /\ forall j, j <> k ->
       get j (clusters (refresh env p)) = get j (clusters pk)
       /\ get j (mapLayers (refresh env p)) = get j (mapLayers pk).

(** ** Failures of the data client *)

(** The error thrown for a response whose [ok] flag is off. *)
Definition QueryFailed (r : Response) : JSError :=
  mkError EError
    (NumberToString (int (Z.of_nat (statusCode r))) ++ " " ++ statusText r).

(** The error [json()] rejects with on a malformed body. *)
Definition ParseFailed (why : string) : JSError := mkError ESyntaxError why.

(** The two failures the specification names, for the request of [url]. *)
Definition query_or_parse_failure (env : Env) (url : string) (e : JSError) : Prop :=
  (exists r, fetch env url = Responded r /\ ok r = false /\ e = QueryFailed r)
  \/ (exists r why, fetch env url = Responded r /\ ok r = true
                    /\ body r = Malformed why /\ e = ParseFailed why).

(** ** Sample networks, pages and features *)

(** No network at all. *)
Definition offline : Env :=
  mkEnv "http://localhost:8088"
        (fun _ => Rejected (TypeError "Failed to fetch"))
        (fun _ => Normal "").

Definition blank_page : Page :=
  mkPage (mkPerKey false false false false) "" ""
         (mkBounds (int 0) (int 0) (int 0) (int 0)) ""
         (mkPerKey [] [] [] []) (mkPerKey false false false false) [] [].

Definition typed_page (hours minmag : string) : Page :=
  mkPage (mkPerKey false false false true) hours minmag
         (mkBounds (dec 245 (-1)) (int (-125)) (dec 495 (-1)) (dec (-66935) (-3)))
         "" (mkPerKey [] [] [] []) (mkPerKey false false false false) [] [].

Definition nameless_brand : JSValue :=
  JObj [("type", JStr "Feature");
        ("geometry", JObj [("type", JStr "Point");
                           ("coordinates", JArr [JNum (dec (-11825) (-2));
                                                 JNum (dec 3405 (-2))])]);
        ("properties", JObj [("name", JStr ""); ("id", JNum (int 0))])].

Definition sample_env : Env :=
  mkEnv "http://localhost:8088"
        (fun _ => Responded (mkResponse true 200 "OK" (Json (JObj [("features", JArr [])]))))
        (fun _ => Normal "1/1/1970, 12:00:00 AM").

Definition point (lon lat : JSNum) : JSValue :=
  JObj [("type", JStr "Point"); ("coordinates", JArr [JNum lon; JNum lat])].

Definition feature (geometry : JSValue) (props : list (string * JSValue)) : JSValue :=
  JObj [("type", JStr "Feature"); ("geometry", geometry);
        ("properties", JObj props)].

(** The geometry of a feature is missing, or its type is not "Point". *)
Definition not_a_point (g : JSValue) : Prop :=
  truthy g = false
  \/ exists t, getProp g "type" = Normal t /\ strict_ne_str t "Point" = true.

(** A feature of the seismic feed whose geometry is a line, not a point. *)
Definition line_quake : JSValue :=
  feature (JObj [("type", JStr "LineString");
                 ("coordinates",
                  JArr [JArr [JNum (dec (-11825) (-2)); JNum (dec 3405 (-2))];
                        JArr [JNum (dec (-1182) (-1)); JNum (dec 341 (-1))]])])
          [("mag", JNum (dec 31 (-1))); ("place", JStr "Los Angeles")].

Definition quake_reply (features : list JSValue) : Env :=
  mkEnv "http://localhost:8088"
        (fun _ => Responded (mkResponse true 200 "OK"
                               (Json (JObj [("type", JStr "FeatureCollection");
                                            ("features", JArr features)]))))
        (fun _ => Normal "1/1/1970, 12:00:00 AM").

(** Clamping a decimal to [4, 16], by comparisons. *)
Definition clampDec (x : Dec) : Dec :=
  let y := if Dleb (mkDec 16 0) x then mkDec 16 0 else x in
  if Dleb (mkDec 4 0) y then y else mkDec 4 0.

(** A quake the feed reports without a magnitude. *)
Definition unrated_quake : JSValue :=
  feature (point (dec (-11768) (-2)) (dec 3562 (-2)))
          [("mag", JNull); ("place", JStr "10km NE of Ridgecrest, CA")].

(** A network where the starbucks query answers 500 and the others answer
    one feature each. *)
Definition flaky : Env :=
  mkEnv "http://localhost:8088"
        (fun url =>
           if String.prefix "http://localhost:8088/api/osm/brand?brand=starbucks" url
           then Responded (mkResponse false 500 "Internal Server Error"
                             (Malformed "Unexpected token < in JSON"))
           else Responded
                  (mkResponse true 200 "OK"
                     (Json (JObj [("type", JStr "FeatureCollection");
                                  ("features",
                                   JArr [feature (point (dec (-11825) (-2)) (dec 3405 (-2)))
                                           [("name", JStr "Main St"); ("id", JNum (int 42));
                                            ("mag", JNum (dec 31 (-1)))]])]))))
        (fun _ => Normal "1/1/1970, 12:00:00 AM").

Definition all_ticked : Page :=
  mkPage (mkPerKey true true false true) "" ""
         (mkBounds (dec 245 (-1)) (int (-125)) (dec 495 (-1)) (dec (-66935) (-3)))
         "Ready. Zoom in, select layers, hit Refresh."
         (mkPerKey [] [] [] []) (mkPerKey false false false false) [] [].

(** The first scenario of the specification: mcd and quakes ticked,
    starbucks not; the mcd query returns three features, the seismic query
    none. The starbucks group still holds a marker of an earlier refresh. *)
Definition three_and_none : Env :=
  mkEnv "http://localhost:8088"
        (fun url =>
           if String.prefix "http://localhost:8088/api/osm/brand?brand=mcdonalds" url
           then Responded
                  (mkResponse true 200 "OK"
                     (Json (JObj [("type", JStr "FeatureCollection");
                                  ("features",
                                   JArr [feature (point (dec (-11825) (-2)) (dec 3405 (-2)))
                                           [("name", JStr "McDonald's"); ("id", JStr "node/1")];
                                         feature (point (dec (-1182) (-1)) (dec 341 (-1)))
                                           [("name", JStr "McDonald's")];
                                         feature (point (dec (-1183) (-1)) (dec 34 0)) []])])))
           else Responded (mkResponse true 200 "OK"
                             (Json (JObj [("type", JStr "FeatureCollection");
                                          ("features", JArr [])]))))
        (fun _ => Normal "1/1/1970, 12:00:00 AM").

Definition scenario_page : Page :=
  mkPage (mkPerKey true false false true) "" ""
         (mkBounds (dec 245 (-1)) (int (-125)) (dec 495 (-1)) (dec (-66935) (-3)))
         "Ready. Zoom in, select layers, hit Refresh."
         (mkPerKey [] [mkMarker Pin (JNum (int 40)) (JNum (int (-74))) None] [] [])
         (mkPerKey false true false false) [] [].

(** ** Further vocabulary: what a load computes *)

(** The callback a load runs on each feature, up to its [addLayer]. *)
Definition markerFn (env : Env) (k : ClusterKey) : JSValue -> Completion (option Marker) :=
  match k with
  | quakes => quakeMarker env
  | _ => pointMarker (Some brandPopup)
  end.

(** The markers one callback run adds: at most one. *)
Definition markersOf (marker : JSValue -> Completion (option Marker))
    (f : JSValue) : list Marker :=
  match marker f with
  | Normal (Some m) => [m]
  | _ => []
  end.

(** The markers a [forEach] over [l] adds before it ends or throws, and how
    it completes. *)
Fixpoint collect (marker : JSValue -> Completion (option Marker))
    (l : list JSValue) : list Marker * Completion unit :=
  match l with
  | [] => ([], Normal tt)
  | f :: l' =>
      match marker f with
      | Throw e => ([], Throw e)
      | Normal None => collect marker l'
      | Normal (Some m) => let (ms, c) := collect marker l' in (m :: ms, c)
      end
  end.

Definition loaded_message (k : ClusterKey) (count : string) : string :=
  match k with
  | mcd => "Loaded mcdonalds: " ++ count
  | starbucks => "Loaded starbucks: " ++ count
  | dg => "Loaded dollargeneral: " ++ count
  | quakes => "Loaded earthquakes: " ++ count
  end.

(** The request of [k] is answered by an ok response whose body parses to
    [gj], and [(gj.features || [])] is the array [l]. *)
Definition answered (env : Env) (p : Page) (k : ClusterKey)
    (gj : JSValue) (l : list JSValue) : Prop :=
  exists r fs,
    fetch env (request_url env p k) = Responded r /\ ok r = true
    /\ body r = Json gj /\ getProp gj "features" = Normal fs
    /\ js_or fs (JArr []) = JArr l.

(** ** Further vocabulary: the text of a bounding box *)

Definition is_dec_digit (c : ascii) : bool :=
  let n := nat_of_ascii c in ((48 <=? n) && (n <=? 57))%nat.

Fixpoint all_digits (s : string) : bool :=
  match s with
  | EmptyString => true
  | String c s' => is_dec_digit c && all_digits s'
  end.

(** An optional minus sign, at least one digit, a point, five digits. *)
Definition fixed5 (s : string) : Prop :=
  exists (neg : bool) ip fp,
    s = (if neg then "-" else "") ++ ip ++ "." ++ fp
    /\ String.length fp = 5%nat /\ (1 <= String.length ip)%nat
    /\ all_digits ip = true /\ all_digits fp = true.

(** A finite number below 1e21 in absolute value. *)
Definition plain_number (x : JSNum) : Prop :=
  exists d, x = Fin d /\ (Qabs (Dval d) < inject_Z (pow10 21))%Q.

(** ** Further vocabulary: decimal numerals *)

(** The numeral [d] followed by one more digit 0. *)
Fixpoint snoc0 (d : Decimal.uint) : Decimal.uint :=
  match d with
  | Decimal.Nil => Decimal.D0 Decimal.Nil
  | Decimal.D0 l => Decimal.D0 (snoc0 l)
  | Decimal.D1 l => Decimal.D1 (snoc0 l)
  | Decimal.D2 l => Decimal.D2 (snoc0 l)
  | Decimal.D3 l => Decimal.D3 (snoc0 l)
  | Decimal.D4 l => Decimal.D4 (snoc0 l)
  | Decimal.D5 l => Decimal.D5 (snoc0 l)
  | Decimal.D6 l => Decimal.D6 (snoc0 l)
  | Decimal.D7 l => Decimal.D7 (snoc0 l)
  | Decimal.D8 l => Decimal.D8 (snoc0 l)
  | Decimal.D9 l => Decimal.D9 (snoc0 l)
  end.

(** One step of reading a decimal numeral, as [digits_value] folds it. *)
Definition read_digit (acc : Z) (c : ascii) : Z :=
  acc * 10 + match digit_val c with Some v => v | None => 0 end.

(** ** Further sample networks *)

(** Every request is answered 200 OK with the body [gj]. *)
Definition reply_with (gj : JSValue) : Env :=
  mkEnv "http://localhost:8088"
        (fun _ => Responded (mkResponse true 200 "OK" (Json gj)))
        (fun _ => Normal "1/1/1970, 12:00:00 AM").

(** ** Further vocabulary: numbers binary64 reads and prints unchanged *)

(** A decimal of at most 15 significant digits whose exponent is far from
    the limits of binary64: the double nearest to it is finite, no other
    such decimal rounds to that double, and the double prints as this
    decimal. *)
Definition short_decimal (d : Dec) : bool :=
  (Z.abs (mant d) <? 10 ^ 15) && (-300 <=? expo d) && (expo d <=? 290).

(** Every number in the value is a short decimal, and so is every finite
    number a text in it reads as. *)
Fixpoint short_numbers (v : JSValue) : bool :=
  match v with
  | JNum (Fin d) => short_decimal d
  | JStr s => match StringToNumber s with Fin d => short_decimal d | _ => true end
  | JArr l => forallb short_numbers l
  | JObj props => forallb (fun kv => short_numbers (snd kv)) props
  | _ => true
  end.

(** The marker stands at two finite numbers, the only coordinates
    [L.marker] and [L.circleMarker] take without throwing
    "Invalid LatLng object" or leaving the marker without a position. *)
Definition plain_position (m : Marker) : bool :=
  match lat m, lon m with
  | JNum (Fin a), JNum (Fin b) => short_decimal a && short_decimal b
  | _, _ => false
  end.

(** [Number.MAX_SAFE_INTEGER]: up to it binary64 holds every natural
    number exactly. *)
Definition MAX_SAFE_INTEGER : Z := 2 ^ 53 - 1.

(** * Properties *)

(** ** Numbers: canonical form, reading and printing *)

Lemma strip_zeros_canonical (fuel : nat) :
  forall m e, Z.abs m < 2 ^ Z.of_nat fuel ->
    mant (strip_zeros fuel m e) = 0 \/ mant (strip_zeros fuel m e) mod 10 <> 0.
Proof.
  induction fuel as [|fuel IH]; intros m e Hm.
  - left. simpl in *. lia.
  - cbn [strip_zeros]. destruct (Z.eqb_spec m 0) as [->|Hm0]; [now left|].
    destruct (Z.eqb_spec (m mod 10) 0) as [H0|H0]; [|now right].
    apply IH. apply Z.div_exact in H0; [|discriminate].
    rewrite Nat2Z.inj_succ, Z.pow_succ_r in Hm by lia.
    assert (Hpos : 0 < 2 ^ Z.of_nat fuel) by (apply Z.pow_pos_nonneg; lia).
    lia.
Qed.

(** The fuel of [norm] is enough: its result has no trailing zero. *)
Lemma norm_canonical (d : Dec) :
  mant (norm d) = 0 \/ mant (norm d) mod 10 <> 0.
Proof.
  unfold norm. apply strip_zeros_canonical.
  rewrite Nat2Z.inj_succ, Z2Nat.id by apply Z.log2_nonneg.
  destruct (Z.eq_dec (Z.abs (mant d)) 0) as [->|Hne]; [reflexivity|].
  apply Z.log2_spec. lia.
Qed.

Example NumberToString_samples :
  map NumberToString
      [int 24; dec 25 (-1); dec 250 (-2); dec (-5) (-7); dec 1 21; dec 123 (-8);
       int 0; NaN; Inf false; Inf true]
  = ["24"; "2.5"; "2.5"; "-5e-7"; "1e+21"; "0.00000123"; "0"; "NaN";
     "Infinity"; "-Infinity"].
Proof. reflexivity. Qed.

Example StringToNumber_samples :
  map StringToNumber
      [""; "  "; "24"; " 2.5 "; "1e3"; "-.5e1"; "0x1F"; "5."; "Infinity";
       "abc"; "12px"; "1,5"; "."; "-"; "1e"; "0x"; "- 1"]
  = [int 0; int 0; int 24; dec 25 (-1); int 1000; int (-5); int 31; int 5;
     Inf false; NaN; NaN; NaN; NaN; NaN; NaN; NaN; NaN].
Proof. reflexivity. Qed.

(** ** The per-key slots *)

Lemma get_set_same {A} (k : ClusterKey) (v : A) (t : PerKey A) :
  get k (set k v t) = v.
Proof. destruct k; reflexivity. Qed.

Lemma get_set_other {A} (k k' : ClusterKey) (v : A) (t : PerKey A) :
  k' <> k -> get k' (set k v t) = get k' t.
Proof. destruct k, k'; intros H; try reflexivity; congruence. Qed.

Lemma set_get {A} (k : ClusterKey) (t : PerKey A) : set k (get k t) t = t.
Proof. destruct k, t; reflexivity. Qed.

(** ** Layer registry: [clearLayer] and [ensureLayer] *)

Lemma clearLayer_clusters k p :
  clusters (clearLayer k p) = set k [] (clusters p).
Proof. unfold clearLayer; simpl. destruct (get k (mapLayers p)); reflexivity. Qed.

Lemma clearLayer_mapLayers k p :
  mapLayers (clearLayer k p) = set k false (mapLayers p).
Proof.
  unfold clearLayer; simpl. destruct (get k (mapLayers p)) eqn:E; simpl.
  - reflexivity.
  - rewrite <- E at 1. now rewrite set_get.
Qed.

Lemma clearLayer_eq k p :
  clearLayer k p =
  with_mapLayers (set k false (mapLayers p)) (with_clusters (set k [] (clusters p)) p).
Proof.
  generalize (clearLayer_mapLayers k p). unfold clearLayer; simpl.
  destruct (get k (mapLayers p)); simpl; intros H; [reflexivity|].
  unfold with_mapLayers, with_clusters in *; simpl in *. now rewrite <- H.
Qed.

(** A group that is already empty and detached is left as it is. *)
Lemma clearLayer_noop k p :
  get k (clusters p) = [] -> get k (mapLayers p) = false -> clearLayer k p = p.
Proof.
  intros Hc Hm. rewrite clearLayer_eq, <- Hc, <- Hm, !set_get.
  destruct p; reflexivity.
Qed.

(** C8: clearing a layer-group twice leaves the page exactly as clearing it
    once does; after one clear the group is empty and detached, so the
    second clear finds nothing to do. *)
Theorem clearLayer_idempotent (k : ClusterKey) (p : Page) :
  clearLayer k (clearLayer k p) = clearLayer k p
  /\ get k (clusters (clearLayer k p)) = []
  /\ get k (mapLayers (clearLayer k p)) = false.
Proof.
  assert (Hc : get k (clusters (clearLayer k p)) = [])
    by (rewrite clearLayer_clusters; apply get_set_same).
  assert (Hm : get k (mapLayers (clearLayer k p)) = false)
    by (rewrite clearLayer_mapLayers; apply get_set_same).
  split; [|split]; trivial.
  now apply clearLayer_noop.
Qed.


(** ** The clearing phase of [refresh] *)

Lemma same_inputs_refl p : same_inputs p p.
Proof. repeat split. Qed.

Lemma same_inputs_trans p q r : same_inputs p q -> same_inputs q r -> same_inputs p r.
Proof. unfold same_inputs; intuition congruence. Qed.

Lemma same_inputs_sym p q : same_inputs p q -> same_inputs q p.
Proof. unfold same_inputs; intuition congruence. Qed.

Lemma clearLayer_inputs k p : same_inputs p (clearLayer k p).
Proof. rewrite clearLayer_eq. repeat split. Qed.

Lemma clearDeselected_step k p :
  (if negb (get k (checked p)) then clearLayer k p else p) =
  with_mapLayers
    (if get k (checked p) then mapLayers p else set k false (mapLayers p))
    (with_clusters
       (if get k (checked p) then clusters p else set k [] (clusters p)) p).
Proof.
  destruct (get k (checked p)); simpl.
  - destruct p; reflexivity.
  - apply clearLayer_eq.
Qed.

(** The clearing phase, group by group. *)
Lemma clearDeselected_effect (p : Page) (k : ClusterKey) :
  (if get k (checked p)
   then get k (clusters (clearDeselected p)) = get k (clusters p)
        /\ get k (mapLayers (clearDeselected p)) = get k (mapLayers p)
   else get k (clusters (clearDeselected p)) = []
        /\ get k (mapLayers (clearDeselected p)) = false)
  /\ same_inputs p (clearDeselected p)
  /\ status (clearDeselected p) = status p
  /\ requests (clearDeselected p) = requests p
  /\ console (clearDeselected p) = console p.
Proof.
  unfold clearDeselected. rewrite !clearDeselected_step.
  destruct p as [[a b c d] h m bd st cl ml co rq]; simpl.
  split; [|repeat split].
  destruct a, b, c, d, k; simpl; split; reflexivity.
Qed.

(** ** Reasoning about statements *)

Lemma bind_eq {A B} (m : Eff A) (k : A -> Eff B) (p : Page) :
  bind m k p =
  match m p with
  | (Normal a, p') => k a p'
  | (Throw e, p') => (Throw e, p')
  end.
Proof. reflexivity. Qed.

Section Preservation.

Variable R : Page -> Page -> Prop.
Hypothesis R_refl : forall p, R p p.
Hypothesis R_trans : forall p q r, R p q -> R q r -> R p r.

Lemma preserves_lift {A} (c : Completion A) : preserves R (lift c).
Proof. intros p. apply R_refl. Qed.

Lemma preserves_ret {A} (a : A) : preserves R (ret a).
Proof. intros p. apply R_refl. Qed.

Lemma preserves_throw {A} (e : JSError) : preserves R (@throw A e).
Proof. intros p. apply R_refl. Qed.

Lemma preserves_bind {A B} (m : Eff A) (k : A -> Eff B) :
  preserves R m -> (forall a, preserves R (k a)) -> preserves R (bind m k).
Proof.
  intros Hm Hk p. rewrite bind_eq. specialize (Hm p).
  destruct (m p) as [[a|e] p']; simpl in *; trivial.
  eapply R_trans; [exact Hm | apply Hk].
Qed.

Lemma preserves_forEach (l : list JSValue) (cb : JSValue -> Eff unit) :
  (forall f, preserves R (cb f)) -> preserves R (forEach l cb).
Proof.
  intros Hcb. induction l as [|f l IH]; simpl.
  - apply preserves_ret.
  - apply preserves_bind; auto.
Qed.

End Preservation.

Lemma pure_outcome_lift {A} (c : Completion A) : pure_outcome (lift c).
Proof. intros p q. reflexivity. Qed.

Lemma pure_outcome_bind {A B} (m : Eff A) (k : A -> Eff B) :
  pure_outcome m -> (forall a, pure_outcome (k a)) -> pure_outcome (bind m k).
Proof.
  intros Hm Hk p q. rewrite !bind_eq. specialize (Hm p q).
  destruct (m p) as [[a|e] p'], (m q) as [[a'|e'] q']; simpl in *;
    try congruence.
  inversion Hm; subst. apply Hk.
Qed.

Lemma pure_outcome_forEach (l : list JSValue) (cb : JSValue -> Eff unit) :
  (forall f, pure_outcome (cb f)) -> pure_outcome (forEach l cb).
Proof.
  intros Hcb. induction l as [|f l IH]; simpl.
  - intros p q. reflexivity.
  - apply pure_outcome_bind; auto.
Qed.

(** ** What one load leaves alone *)

Lemma frame_refl k p : frame k p p.
Proof. repeat split. Qed.

Lemma frame_trans k p q r : frame k p q -> frame k q r -> frame k p r.
Proof.
  intros (Hi & Hc & Hr & Ho) (Hi' & Hc' & Hr' & Ho').
  repeat split; try (eapply same_inputs_trans; eassumption); try congruence;
    destruct (Ho k' H), (Ho' k' H); congruence.
Qed.

#[local] Hint Resolve frame_refl : core.

Lemma setStatus_frame k msg : preserves (frame k) (setStatus msg).
Proof. intros p. repeat split. Qed.

Lemma addLayer_frame k m : preserves (frame k) (addLayer k m).
Proof.
  intros p. repeat split; simpl; trivial.
  now apply get_set_other.
Qed.

Lemma ensureLayer_frame k : preserves (frame k) (fun p => (Normal tt, ensureLayer k p)).
Proof.
  intros p. unfold ensureLayer; simpl.
  destruct (negb (get k (mapLayers p))); repeat split; simpl; trivial.
  now apply get_set_other.
Qed.

Lemma forEachFeature_frame fs k marker : preserves (frame k) (forEachFeature fs k marker).
Proof.
  unfold forEachFeature.
  destruct (js_or fs (JArr [])); try (intros p; apply frame_refl).
  apply preserves_forEach; [apply frame_refl | apply frame_trans |].
  intros f. apply preserves_bind; [apply frame_trans | |].
  - intros p; apply frame_refl.
  - intros [m|]; [apply addLayer_frame | intros p; apply frame_refl].
Qed.

Lemma forEachFeature_pure fs k marker : pure_outcome (forEachFeature fs k marker).
Proof.
  unfold forEachFeature.
  destruct (js_or fs (JArr [])); try (intros p q; reflexivity).
  apply pure_outcome_forEach. intros f.
  apply pure_outcome_bind; [apply pure_outcome_lift|].
  intros [m|] p q; reflexivity.
Qed.

(** ** The loads of [refresh], key by key *)

Lemma loadSelected_runLoads env p :
  loadSelected env p =
  bind (runLoads env all_keys) (fun _ => setStatus "Done.") p.
Proof.
  unfold loadSelected, all_keys, runLoads. rewrite !bind_eq.
  fold (load env mcd).
  destruct (when (get mcd (checked p)) (load env mcd) p) as [[[]|e] p1];
    [|reflexivity].
  rewrite !bind_eq.
  destruct (when (get starbucks (checked p1)) _ p1) as [[[]|e] p2];
    [|reflexivity].
  rewrite !bind_eq.
  destruct (when (get dg (checked p2)) _ p2) as [[[]|e] p3]; [|reflexivity].
  rewrite !bind_eq.
  destruct (when (get quakes (checked p3)) _ p3) as [[[]|e] p4]; reflexivity.
Qed.

Lemma numberOr_eq value fallback :
  numberOr value fallback = Normal (effectiveNumber value fallback).
Proof.
  unfold numberOr, effectiveNumber, js_or; simpl.
  destruct (String.eqb value ""); reflexivity.
Qed.

Lemma request_url_inputs env p q k :
  same_inputs p q -> request_url env q k = request_url env p k.
Proof.
  intros (_ & Hh & Hm & Hb).
  destruct k; unfold request_url, brand_url, quake_url, getBBox;
    now rewrite ?Hh, ?Hm, ?Hb.
Qed.

(** [fetchJSON] on the page: one more request logged, nothing else touched. *)
Lemma fetchJSON_page env url p :
  snd (fetchJSON env url p) = with_requests (requests p ++ [url]) p.
Proof.
  unfold fetchJSON. destruct (fetch env url) as [e|r]; trivial.
  destruct (negb (ok r)); trivial. destruct (body r); trivial.
Qed.

Lemma fetchJSON_pure env url : pure_outcome (fetchJSON env url).
Proof.
  intros p q. unfold fetchJSON. destruct (fetch env url) as [e|r]; trivial.
  destruct (negb (ok r)); trivial. destruct (body r); trivial.
Qed.

(** Every load is: announce, fetch one url, then work on the answer. *)
Lemma load_eq env k p :
  load env k p =
  bind (fetchJSON env (request_url env p k)) (loadTail env k)
       (with_status (loading_message k) p).
Proof.
  destruct k; try reflexivity.
  unfold load, loadQuakes. rewrite bind_eq. unfold lift at 1.
  rewrite numberOr_eq. rewrite bind_eq. unfold lift at 1.
  rewrite numberOr_eq. reflexivity.
Qed.

(** Statement by statement through a sequence of binds. *)
Ltac frame_steps :=
  repeat (apply preserves_bind; [apply frame_trans | | intros ?]);
  try (intros ?; apply frame_refl);
  auto using forEachFeature_frame, ensureLayer_frame, setStatus_frame.

Ltac pure_steps :=
  repeat (apply pure_outcome_bind; [| intros ?]);
  auto using pure_outcome_lift, forEachFeature_pure;
  intros ? ?; reflexivity.

Lemma loadTail_frame env k gj : preserves (frame k) (loadTail env k gj).
Proof.
  assert (Hb : forall brand k, preserves (frame k) (brandTail brand k gj)).
  { intros brand k0. unfold brandTail, addGeoJSONPointsToCluster. frame_steps. }
  destruct k; try apply Hb.
  unfold loadTail, quakeTail. frame_steps.
Qed.

Lemma loadTail_pure env k gj : pure_outcome (loadTail env k gj).
Proof.
  assert (Hb : forall brand k, pure_outcome (brandTail brand k gj)).
  { intros brand k0. unfold brandTail, addGeoJSONPointsToCluster. pure_steps. }
  destruct k; try apply Hb.
  unfold loadTail, quakeTail. pure_steps.
Qed.

(** One load: one request, and only its own group and the status line
    change. *)
Lemma load_effect env k p :
  let q := snd (load env k p) in
  same_inputs p q /\ console q = console p
  /\ requests q = (requests p ++ [request_url env p k])%list
  /\ forall k', k' <> k ->
       get k' (clusters q) = get k' (clusters p)
       /\ get k' (mapLayers q) = get k' (mapLayers p).
Proof.
  rewrite load_eq, bind_eq.
  pose proof (fetchJSON_page env (request_url env p k)
                (with_status (loading_message k) p)) as Hp.
  destruct (fetchJSON env _ _) as [[gj|e] p1]; simpl in Hp; subst p1.
  - destruct (loadTail_frame env k gj
                (with_requests (requests p ++ [request_url env p k])
                   (with_status (loading_message k) p)))
      as (Hi & Hc & Hr & Ho).
    simpl. repeat split; try apply Hi; trivial; apply Ho; trivial.
  - simpl. repeat split.
Qed.

(** Whether a load completes depends on the controls and the network only. *)
Lemma load_outcome env k p q :
  same_inputs p q -> fst (load env k p) = fst (load env k q).
Proof.
  intros Hi. rewrite !load_eq, !bind_eq.
  rewrite (request_url_inputs env p q k Hi).
  set (url := request_url env p k).
  pose proof (fetchJSON_pure env url (with_status (loading_message k) p)
                (with_status (loading_message k) q)) as Hf.
  destruct (fetchJSON env url (with_status (loading_message k) p)) as [[gj|e] p1],
           (fetchJSON env url (with_status (loading_message k) q)) as [[gj'|e'] q1];
    simpl in Hf; try congruence; try (simpl; congruence).
  inversion Hf; subst. apply loadTail_pure.
Qed.

(** ** The loading phase of [refresh] *)

Lemma runLoads_trace env p0 ks :
  forall p, same_inputs p0 p ->
    let r := runLoads env ks p in
    let sel := filter (fun k => get k (checked p0)) ks in
    requests (snd r)
      = (requests p ++ map (request_url env p0) (attempted (load_ok env p0) sel))%list
    /\ same_inputs p0 (snd r)
    /\ console (snd r) = console p
    /\ is_normal (fst r) = forallb (load_ok env p0) sel.
Proof.
  induction ks as [|k ks IH]; intros p Hi; simpl.
  - rewrite app_nil_r. repeat split; apply Hi.
  - rewrite bind_eq.
    assert (Hck : get k (checked p) = get k (checked p0))
      by (destruct Hi as (-> & _); reflexivity).
    rewrite Hck. destruct (get k (checked p0)) eqn:Ek; simpl.
    + pose proof (load_effect env k p) as (Hq & Hc & Hr & _).
      pose proof (load_outcome env k p0 p Hi) as Ho.
      unfold load_ok at 1 3. rewrite Ho.
      rewrite (request_url_inputs env p0 p k Hi) in Hr.
      destruct (load env k p) as [[[]|e] q]; simpl in *.
      * destruct (IH q (same_inputs_trans _ _ _ Hi Hq)) as (Hr' & Hi' & Hc' & Hn').
        rewrite Hr', Hr, <- app_assoc. simpl.
        repeat split; try apply Hi'; congruence.
      * repeat split; try apply (same_inputs_trans _ _ _ Hi Hq); trivial.
    + apply IH, Hi.
Qed.

Lemma refresh_requests env p :
  requests (refresh env p)
  = (requests p ++ map (request_url env p)
                     (attempted (load_ok env p) (selected p)))%list.
Proof.
  destruct (clearDeselected_effect p mcd) as (_ & Hi & _ & Hr & _).
  unfold refresh. rewrite loadSelected_runLoads, bind_eq.
  destruct (runLoads_trace env p all_keys (clearDeselected p) Hi)
    as (Hreq & _ & _ & _).
  fold (selected p) in Hreq. rewrite Hr in Hreq.
  destruct (runLoads env all_keys (clearDeselected p)) as [[[]|e] q];
    simpl in *; exact Hreq.
Qed.

Lemma refresh_done env p :
  forallb (load_ok env p) (selected p) = true -> status (refresh env p) = "Done.".
Proof.
  intros Hall.
  destruct (clearDeselected_effect p mcd) as (_ & Hi & _).
  unfold refresh. rewrite loadSelected_runLoads, bind_eq.
  destruct (runLoads_trace env p all_keys (clearDeselected p) Hi)
    as (_ & _ & _ & Hn).
  fold (selected p) in Hn. rewrite Hall in Hn.
  destruct (runLoads env all_keys (clearDeselected p)) as [[[]|e] q];
    simpl in *; [reflexivity | discriminate].
Qed.

Lemma attempted_all_ok okf ks :
  forallb okf ks = true -> attempted okf ks = ks.
Proof.
  induction ks as [|k ks IH]; simpl; trivial.
  intros H. apply andb_true_iff in H as [Hk Hks]. rewrite Hk. f_equal. auto.
Qed.

Lemma first_failure_split okf ks :
  forallb okf ks = false ->
  exists pre k post,
    ks = (pre ++ k :: post)%list /\ forallb okf pre = true /\ okf k = false
    /\ attempted okf ks = (pre ++ [k])%list.
Proof.
  induction ks as [|k ks IH]; simpl; intros Hall.
  - discriminate.
  - destruct (okf k) eqn:Hk; simpl in Hall.
    + destruct (IH Hall) as (pre & k' & post & -> & Hpre & Hk' & Hatt).
      exists (k :: pre), k', post. simpl. rewrite Hk, Hatt. auto.
    + exists [], k, ks. auto.
Qed.

(** C5: whatever the checkboxes say, the requests one [refresh] issues are
    those of the ticked datasets in the order mcd, starbucks, dg, quakes,
    each issued only once every load before it has completed, so the list
    stops at the first load that fails; when no load fails all of them are
    issued and the status ends as "Done.". *)
Theorem refresh_loads_in_order (env : Env) (p : Page) :
  selected p = filter (fun k => get k (checked p)) [mcd; starbucks; dg; quakes]
  /\ requests (refresh env p)
     = (requests p ++ map (request_url env p)
                        (attempted (load_ok env p) (selected p)))%list
  /\ (if forallb (load_ok env p) (selected p)
      then attempted (load_ok env p) (selected p) = selected p
           /\ status (refresh env p) = "Done."
      else exists pre k post,
          selected p = (pre ++ k :: post)%list
          /\ forallb (load_ok env p) pre = true
          /\ load_ok env p k = false
          /\ attempted (load_ok env p) (selected p) = (pre ++ [k])%list).
Proof.
  split; [reflexivity|]. split; [apply refresh_requests|].
  destruct (forallb (load_ok env p) (selected p)) eqn:Hall.
  - split; [now apply attempted_all_ok | now apply refresh_done].
  - now apply first_failure_split.
Qed.

Lemma runLoads_selected env p0 ks :
  forall p, same_inputs p0 p ->
    runLoads env ks p = runLoads env (filter (fun k => get k (checked p0)) ks) p.
Proof.
  induction ks as [|k ks IH]; intros p Hi; simpl; trivial.
  assert (Hck : get k (checked p) = get k (checked p0))
    by (destruct Hi as (-> & _); reflexivity).
  destruct (get k (checked p0)) eqn:Ek; simpl; rewrite !bind_eq, Hck; simpl.
  - pose proof (load_effect env k p) as (Hq & _).
    destruct (load env k p) as [[[]|e] q]; simpl in *; trivial.
    apply IH. eapply same_inputs_trans; eassumption.
  - apply IH, Hi.
Qed.

Lemma runLoads_app env pre rest :
  forall p pk, runLoads env pre p = (Normal tt, pk) ->
    runLoads env (pre ++ rest) p = runLoads env rest pk.
Proof.
  induction pre as [|k pre IH]; intros p pk H; simpl in *.
  - unfold ret in H. now inversion H.
  - rewrite bind_eq in *.
    destruct (when (get k (checked p)) (load env k) p) as [[[]|e] q];
      [now apply IH | discriminate].
Qed.

(** The loads never touch the group of a dataset that is not ticked. *)
Lemma runLoads_untouched env ks :
  forall p j, get j (checked p) = false ->
    get j (clusters (snd (runLoads env ks p))) = get j (clusters p)
    /\ get j (mapLayers (snd (runLoads env ks p))) = get j (mapLayers p).
Proof.
  induction ks as [|k ks IH]; intros p j Hj; simpl; [split; reflexivity|].
  rewrite bind_eq. destruct (get k (checked p)) eqn:Ek; simpl.
  - assert (Hne : j <> k) by congruence.
    pose proof (load_effect env k p) as ((Hck & _) & _ & _ & Ho).
    destruct (Ho j Hne) as [Hc Hm].
    destruct (load env k p) as [[[]|e] q]; simpl in *; [|split; trivial].
    destruct (IH q j) as [Hc' Hm']; [congruence|]. split; congruence.
  - now apply IH.
Qed.

(** What the clearing phase removed stays removed to the end of [refresh]. *)
Lemma refresh_deselected_cleared env p k :
  get k (checked p) = false ->
  get k (clusters (refresh env p)) = []
  /\ get k (mapLayers (refresh env p)) = false.
Proof.
  intros Hk.
  destruct (clearDeselected_effect p k) as (Hcl & (Hck & _) & _).
  rewrite Hk in Hcl. destruct Hcl as [Hc Hm].
  destruct (runLoads_untouched env all_keys (clearDeselected p) k) as [Hc' Hm'];
    [congruence|].
  unfold refresh. rewrite loadSelected_runLoads, bind_eq.
  destruct (runLoads env all_keys (clearDeselected p)) as [[[]|e] q];
    simpl in *; split; congruence.
Qed.

(** C4: the clearing phase with which every [refresh] starts empties and
    detaches exactly the layer-groups whose checkbox is not ticked, and
    leaves the markers and the attachment of every ticked one as they
    were (its old markers are still there when its load begins); nothing
    else on the page changes, and what was cleared is still cleared and
    detached when [refresh] ends. *)
Theorem clearDeselected_spec (env : Env) (p : Page) (k : ClusterKey) :
  (if get k (checked p)
   then get k (clusters (clearDeselected p)) = get k (clusters p)
        /\ get k (mapLayers (clearDeselected p)) = get k (mapLayers p)
   else get k (clusters (clearDeselected p)) = []
        /\ get k (mapLayers (clearDeselected p)) = false
        /\ get k (clusters (refresh env p)) = []
        /\ get k (mapLayers (refresh env p)) = false)
  /\ same_inputs p (clearDeselected p)
  /\ status (clearDeselected p) = status p
  /\ requests (clearDeselected p) = requests p
  /\ console (clearDeselected p) = console p.
Proof.
  destruct (clearDeselected_effect p k) as (Hk & Hrest).
  split; [|exact Hrest].
  destruct (get k (checked p)) eqn:Ek; [exact Hk|].
  destruct Hk as [Hc Hm].
  destruct (refresh_deselected_cleared env p k Ek) as [Hc' Hm'].
  repeat split; assumption.
Qed.

Lemma ensureLayer_attached k p : get k (mapLayers (ensureLayer k p)) = true.
Proof.
  unfold ensureLayer. destruct (get k (mapLayers p)) eqn:E; simpl; trivial.
  apply get_set_same.
Qed.

(** A load that completes leaves its layer-group attached to the map. *)
Lemma load_attaches env k p q :
  load env k p = (Normal tt, q) -> get k (mapLayers q) = true.
Proof.
  rewrite load_eq, bind_eq.
  destruct (fetchJSON env _ _) as [[gj|e] p1]; [|discriminate].
  assert (Hb : forall brand k0 p1,
             brandTail brand k0 gj p1 = (Normal tt, q) ->
             get k0 (mapLayers q) = true).
  { intros brand k0 p0. unfold brandTail. rewrite bind_eq.
    destruct (addGeoJSONPointsToCluster gj k0 (Some brandPopup) p0) as [[[]|e] p2];
      [|discriminate].
    rewrite bind_eq. cbv beta iota. rewrite bind_eq. unfold lift at 1.
    destruct (featureCount gj) as [n|e]; [|discriminate].
    unfold setStatus. intros H; inversion H; subst. simpl.
    apply ensureLayer_attached. }
  destruct k; try apply Hb. clear Hb.
  unfold loadTail, quakeTail. rewrite bind_eq. unfold lift at 1.
  destruct (getProp gj "features") as [fs|e]; [|discriminate].
  rewrite bind_eq.
  destruct (forEachFeature fs quakes (quakeMarker env) p1) as [[[]|e] p2];
    [|discriminate].
  rewrite bind_eq. cbv beta iota. rewrite bind_eq. unfold lift at 1.
  destruct (featureCount gj) as [n|e]; [|discriminate].
  unfold setStatus. intros H; inversion H; subst.
  exact (ensureLayer_attached quakes p2).
Qed.

Lemma refresh_failure_at (env : Env) (p : Page)
    (pre post : list ClusterKey) (k : ClusterKey) (e : JSError) (pk pk' : Page) :
  selected p = (pre ++ k :: post)%list ->
  runLoads env pre (clearDeselected p) = (Normal tt, pk) ->
  load env k pk = (Throw e, pk') ->
  refresh env p = with_status ("Error: " ++ message e) (console_error e pk')
  /\ failed_at env p pre k e pk.
Proof.
  unfold failed_at.
  intros Hsel Hpre Hk.
  destruct (clearDeselected_effect p mcd) as (_ & Hi & _ & Hrq0 & Hco0).
  assert (Hall : runLoads env all_keys (clearDeselected p) = (Throw e, pk')).
  { rewrite (runLoads_selected env p all_keys _ Hi).
    fold (selected p). rewrite Hsel, (runLoads_app env pre _ _ _ Hpre).
    simpl. rewrite bind_eq.
    destruct (runLoads_trace env p pre (clearDeselected p) Hi) as (_ & Hipk & _).
    rewrite Hpre in Hipk; simpl in Hipk.
    assert (Hin : In k (selected p)) by (rewrite Hsel; apply in_elt).
    apply filter_In in Hin as [_ Hck].
    destruct Hipk as (-> & _). rewrite Hck. simpl. now rewrite Hk. }
  assert (Hr : refresh env p
               = with_status ("Error: " ++ message e) (console_error e pk')).
  { unfold refresh. now rewrite loadSelected_runLoads, bind_eq, Hall. }
  destruct (runLoads_trace env p pre (clearDeselected p) Hi) as (Hrq & Hipk & Hco & Hok).
  rewrite Hpre in Hrq, Hipk, Hco, Hok; simpl in Hrq, Hipk, Hco, Hok.
  pose proof (load_effect env k pk) as (_ & Hc' & Hr' & Ho').
  rewrite Hk in Hc', Hr', Ho'; simpl in Hc', Hr', Ho'.
  rewrite (request_url_inputs env p pk k Hipk) in Hr'.
  rewrite Hr; simpl.
  repeat split; try congruence; try (now apply Ho').
  rewrite Hr', Hrq, Hrq0, <- app_assoc, map_app. simpl.
  assert (Hf : filter (fun k0 => get k0 (checked p)) pre = pre).
  { apply forallb_filter_id. apply forallb_forall. intros x Hx.
    assert (Hin : In x (selected p)) by (rewrite Hsel; apply in_or_app; auto).
    now apply filter_In in Hin. }
  rewrite Hf in Hrq, Hok.
  assert (Ha : attempted (load_ok env p) pre = pre).
  { clear - Hok. symmetry in Hok. induction pre as [|x pre IH]; simpl in *; trivial.
    apply andb_true_iff in Hok as [Hx Hpre]. rewrite Hx. f_equal. auto. }
  now rewrite Hf, Ha.
Qed.

(** C3: if the load of some ticked dataset fails, [refresh] still returns a
    page. The failing load is the first one that fails, the loads of the
    ticked datasets before it have completed, and in the page returned the
    error is logged, the status line is "Error: " followed by its message,
    no request was issued for any later dataset, and every layer-group but
    the failing one is exactly as the completed loads left it. *)
Theorem refresh_stops_at_first_failure (env : Env) (p : Page) :
  forallb (load_ok env p) (selected p) = false ->
  exists pre k post e pk pk',
    selected p = (pre ++ k :: post)%list
    /\ runLoads env pre (clearDeselected p) = (Normal tt, pk)
    /\ load env k pk = (Throw e, pk')
    /\ refresh env p = with_status ("Error: " ++ message e) (console_error e pk')
    /\ failed_at env p pre k e pk.
Proof.
  intros Hall.
  destruct (first_failure_split _ _ Hall) as (pre & k & post & Hsel & Hpre & Hk & _).
  destruct (clearDeselected_effect p mcd) as (_ & Hi & _).
  destruct (runLoads_trace env p pre (clearDeselected p) Hi) as (_ & Hipk & _ & Hok).
  assert (Hf : filter (fun k0 => get k0 (checked p)) pre = pre).
  { apply forallb_filter_id. apply forallb_forall. intros x Hx.
    assert (Hin : In x (selected p)) by (rewrite Hsel; apply in_or_app; auto).
    now apply filter_In in Hin. }
  rewrite Hf, Hpre in Hok.
  destruct (runLoads env pre (clearDeselected p)) as [[[]|e0] pk] eqn:Hrun;
    simpl in Hok, Hipk; [|discriminate].
  pose proof (load_outcome env k p pk Hipk) as Ho.
  unfold load_ok in Hk.
  destruct (load env k pk) as [[[]|e] pk'] eqn:Hload; simpl in Ho.
  - rewrite Ho in Hk. discriminate.
  - exists pre, k, post, e, pk, pk'.
    repeat (split; trivial); eapply refresh_failure_at; eassumption.
Qed.

(** ** The data client: how [fetchJSON] fails *)

(** C7, as amended: a response that is not ok makes [fetchJSON] throw an
    Error whose message is the status code, a space and the status text,
    and an ok response whose body is not JSON makes it throw the
    SyntaxError of the parser, a different class of error. These are not
    the only failures: when [fetch] itself rejects (no response at all),
    or when the body of an ok response cannot be read, the error of the
    platform is thrown on unchanged. [fetchJSON] fails in no other way,
    and otherwise returns the parsed body. *)
Theorem fetchJSON_failures (env : Env) (url : string) (p : Page) :
  (forall e, fst (fetchJSON env url p) = Throw e <->
             (query_or_parse_failure env url e
              \/ fetch env url = Rejected e
              \/ exists r, fetch env url = Responded r /\ ok r = true
                           /\ body r = Unreadable e))
  /\ (forall v, fst (fetchJSON env url p) = Normal v <->
                exists r, fetch env url = Responded r /\ ok r = true
                          /\ body r = Json v)
  /\ (forall r why, ename (QueryFailed r) <> ename (ParseFailed why))
  /\ (forall r, message (QueryFailed r)
                = NumberToString (int (Z.of_nat (statusCode r))) ++ " "
                  ++ statusText r).
Proof.
  unfold query_or_parse_failure, fetchJSON, QueryFailed, ParseFailed.
  split; [|split; [|split]].
  - intros e. destruct (fetch env url) as [e0|r]; simpl.
    + split.
      * intros H; inversion H; auto.
      * intros [[(r & H & _)|(r & why & H & _)]|[H|(r & H & _)]]; congruence.
    + destruct (ok r) eqn:Hok; simpl.
      * destruct (body r) as [why|e1|v] eqn:Hb; simpl; split.
        -- intros H; inversion H; subst. left; right. exists r, why. auto.
        -- intros [[(r' & H & Hok' & _)|(r' & why' & H & _ & Hb' & ->)]
                  |[H|(r' & H & _ & Hb')]];
             inversion H; subst; congruence.
        -- intros H; inversion H; subst. right; right. exists r. auto.
        -- intros [[(r' & H & Hok' & _)|(r' & why' & H & _ & Hb' & ->)]
                  |[H|(r' & H & _ & Hb')]];
             inversion H; subst; congruence.
        -- discriminate.
        -- intros [[(r' & H & Hok' & _)|(r' & why' & H & _ & Hb' & ->)]
                  |[H|(r' & H & _ & Hb')]];
             inversion H; subst; congruence.
      * split.
        -- intros H; inversion H; subst. left; left. exists r. auto.
        -- intros [[(r' & H & _ & ->)|(r' & why' & H & Hok' & _)]
                  |[H|(r' & H & Hok' & _)]];
             inversion H; subst; congruence.
  - intros v. destruct (fetch env url) as [e0|r]; simpl.
    + split; [discriminate | intros (r & H & _); discriminate].
    + destruct (ok r) eqn:Hok; simpl.
      * destruct (body r) as [why|e1|v'] eqn:Hb; simpl; split.
        -- discriminate.
        -- intros (r' & H & _ & Hb'); inversion H; subst; congruence.
        -- discriminate.
        -- intros (r' & H & _ & Hb'); inversion H; subst; congruence.
        -- intros H; inversion H; subst. exists r. auto.
        -- intros (r' & H & _ & Hb'); inversion H; subst; congruence.
      * split; [discriminate|].
        intros (r' & H & Hok' & _); inversion H; subst; congruence.
  - simpl; discriminate.
  - reflexivity.
Qed.

(** C7, as stated, fails: when the network is down [fetch] rejects and
    [fetchJSON] throws that TypeError, which is neither of the two kinds. *)
Lemma fetchJSON_third_failure :
  fst (fetchJSON offline "http://localhost:8088/api/osm/brand" blank_page)
  = Throw (TypeError "Failed to fetch")
  /\ ~ query_or_parse_failure offline "http://localhost:8088/api/osm/brand"
        (TypeError "Failed to fetch")
  /\ ~ (forall env url p e,
          fst (fetchJSON env url p) = Throw e ->
          query_or_parse_failure env url e).
Proof.
  assert (H : ~ query_or_parse_failure offline
                  "http://localhost:8088/api/osm/brand"
                  (TypeError "Failed to fetch")).
  { intros [(r & Hf & _)|(r & why & Hf & _)]; discriminate. }
  split; [reflexivity|]. split; [exact H|].
  intros Hall. apply H. now apply (Hall offline _ blank_page).
Qed.

Lemma fetchJSON_failures_witness :
  query_or_parse_failure flaky
    "http://localhost:8088/api/osm/brand?brand=starbucks&bbox=0,0,0,0"
    (mkError EError "500 Internal Server Error").
Proof.
  destruct (proj1 (proj1 (fetchJSON_failures flaky
                            "http://localhost:8088/api/osm/brand?brand=starbucks&bbox=0,0,0,0"
                            blank_page)
                     (mkError EError "500 Internal Server Error")) eq_refl)
    as [H|[H|(r & H & Hok & _)]];
    [exact H | discriminate H
    | exfalso; cbv in H; injection H as <-; discriminate Hok].
Defined.

(** ** The seismic query: [hours] and [minmag] *)

(** C2, as amended: [loadQuakes] itself turns the two input values into
    the numbers of the query it issues. An empty value gives the default
    (24 hours, magnitude 2.5); any other value is read by [Number], so a
    value that is not numeric gives NaN, not the default. *)
Theorem quake_query_numbers (env : Env) (p : Page) :
  requests (snd (loadQuakes env p))
  = List.app (requests p)
      [API env ++ "/api/usgs/quakes?hours="
       ++ NumberToString (effectiveNumber (qHours p) (int 24))
       ++ "&minmag=" ++ NumberToString (effectiveNumber (qMinMag p) (dec 25 (-1)))
       ++ "&bbox=" ++ getBBox p]
  /\ numberOr (qHours p) (int 24) = Normal (effectiveNumber (qHours p) (int 24))
  /\ numberOr (qMinMag p) (dec 25 (-1))
     = Normal (effectiveNumber (qMinMag p) (dec 25 (-1)))
  /\ (forall d, effectiveNumber "" d = d)
  /\ (forall v d, v <> "" -> effectiveNumber v d = StringToNumber v)
  /\ NumberToString (int 24) = "24" /\ NumberToString (dec 25 (-1)) = "2.5".
Proof.
  split. { exact (proj1 (proj2 (proj2 (load_effect env quakes p)))). }
  split; [apply numberOr_eq|]. split; [apply numberOr_eq|].
  split; [reflexivity|]. split; [|split; reflexivity].
  intros v d Hv. unfold effectiveNumber.
  destruct (String.eqb_spec v ""); congruence.
Qed.

(** C2, as stated, fails: with "abc" typed for the hours and "strong" for
    the magnitude, neither numeric, the query goes out with NaN twice. *)
Lemma quake_query_text_not_defaulted :
  StringToNumber "abc" = NaN /\ StringToNumber "strong" = NaN
  /\ numberOr "abc" (int 24) = Normal NaN
  /\ numberOr "strong" (dec 25 (-1)) = Normal NaN
  /\ requests (refresh offline (typed_page "abc" "strong"))
     = ["http://localhost:8088/api/usgs/quakes?hours=NaN&minmag=NaN&bbox=24.50000,-125.00000,49.50000,-66.93500"]
  /\ ~ (forall v, StringToNumber v = NaN -> numberOr v (int 24) = Normal (int 24)).
Proof.
  repeat split; try reflexivity.
  intros H. specialize (H "abc" eq_refl). discriminate.
Qed.

Lemma quake_query_numbers_witness :
  requests (snd (loadQuakes sample_env (typed_page "" "")))
  = ["http://localhost:8088/api/usgs/quakes?hours=24&minmag=2.5&bbox=24.50000,-125.00000,49.50000,-66.93500"].
Proof. exact (proj1 (quake_query_numbers sample_env (typed_page "" ""))). Defined.

(** ** Brand popups *)

(** C10: the popup of a brand feature shows "Unknown" for every falsy
    [name] (absent, [null], the empty string, [0], [false]), not only for
    an absent one, and shows nothing for every falsy [id]. *)
Theorem brand_popup_falsy (f props name0 id0 : JSValue) :
  getProp f "properties" = Normal props ->
  optProp props "name" = Normal name0 ->
  optProp props "id" = Normal id0 ->
  (truthy name0 = false ->
   brandPopup f
   = cbind (ToString (js_or id0 (JStr "")))
       (fun sid => Normal ("<b>Unknown</b><br><small>" ++ sid ++ "</small>")))
  /\ (truthy id0 = false ->
      brandPopup f
      = cbind (ToString (js_or name0 (JStr "Unknown")))
          (fun sname => Normal ("<b>" ++ sname ++ "</b><br><small></small>")))
  /\ (truthy name0 = false -> truthy id0 = false ->
      brandPopup f = Normal "<b>Unknown</b><br><small></small>").
Proof.
  intros Hp Hn Hi. unfold brandPopup. rewrite Hp; simpl. rewrite Hn; simpl.
  unfold js_or. repeat split.
  - intros ->. simpl. now rewrite Hi.
  - intros Hid. destruct (ToString (if truthy name0 then name0 else JStr "Unknown"));
      simpl; trivial.
    now rewrite Hi; simpl; rewrite Hid.
  - intros -> Hid. simpl. now rewrite Hi; simpl; rewrite Hid.
Qed.

Lemma brand_popup_falsy_witness :
  brandPopup nameless_brand = Normal "<b>Unknown</b><br><small></small>"
  /\ pointMarker (Some brandPopup) nameless_brand
     = Normal (Some (mkMarker Pin (JNum (dec 3405 (-2))) (JNum (dec (-11825) (-2)))
                       (Some "<b>Unknown</b><br><small></small>"))).
Proof.
  split; [|reflexivity].
  apply (brand_popup_falsy nameless_brand
           (JObj [("name", JStr ""); ("id", JNum (int 0))])
           (JStr "") (JNum (int 0)));
    reflexivity.
Defined.

(** ** Quake popups *)

(** C9, as amended: whenever the seismic path builds a marker, its popup
    is "<b>M mag</b><br>place<br><small>time</small>" where the magnitude
    text is "?" when [mag] is absent ([undefined] or [null]), the place
    text is empty (never "undefined") when [place] is absent, and the time
    text is empty when [time] is absent or any other falsy value such as
    [0]; only a truthy [time] is formatted through the locale. *)
Theorem quake_popup_texts (env : Env) (f : JSValue) (m : Marker) :
  quakeMarker env f = Normal (Some m) ->
  exists props mag0 place0 time0 smag splace stime,
    getProp f "properties" = Normal props
    /\ optProp props "mag" = Normal mag0
    /\ optProp props "place" = Normal place0
    /\ optProp props "time" = Normal time0
    /\ popup m = Some ("<b>M " ++ smag ++ "</b><br>" ++ splace
                       ++ "<br><small>" ++ stime ++ "</small>")
    /\ (if is_nullish mag0 then smag = "?" else ToString mag0 = Normal smag)
    /\ (if is_nullish place0 then splace = "" else ToString place0 = Normal splace)
    /\ (if truthy time0 then dateToLocaleString env time0 = Normal stime
        else stime = "").
Proof.
  unfold quakeMarker, quakeMag, quakePlace, quakeTime. intros H.
  destruct (getProp f "geometry") as [g|]; simpl in H; [|discriminate].
  destruct (optProp g "coordinates") as [c|]; simpl in H; [|discriminate].
  destruct (negb (truthy c)); [discriminate|].
  destruct (destructure2 c) as [[lo la]|]; simpl in H; [|discriminate].
  destruct (getProp f "properties") as [props|]; simpl in H; [|discriminate].
  destruct (optProp props "mag") as [mag0|] eqn:Hm; simpl in H; [|discriminate].
  destruct (optProp props "place") as [place0|] eqn:Hp; simpl in H; [|discriminate].
  destruct (optProp props "time") as [time0|] eqn:Ht; simpl in H; [|discriminate].
  destruct (if truthy time0 then dateToLocaleString env time0 else Normal "")
    as [stime|] eqn:Hst; simpl in H; [|discriminate].
  destruct (quakeRadius (js_nullish mag0 (JStr "?"))) as [r|]; simpl in H;
    [|discriminate].
  destruct (ToString (js_nullish mag0 (JStr "?"))) as [smag|] eqn:Hsm;
    simpl in H; [|discriminate].
  destruct (ToString (js_nullish place0 (JStr ""))) as [splace|] eqn:Hsp;
    simpl in H; [|discriminate].
  inversion H; subst m; clear H.
  exists props, mag0, place0, time0, smag, splace, stime.
  repeat split; trivial.
  - unfold js_nullish in Hsm. destruct (is_nullish mag0); trivial.
    simpl in Hsm. congruence.
  - unfold js_nullish in Hsp. destruct (is_nullish place0); trivial.
    simpl in Hsp. congruence.
  - destruct (truthy time0); congruence.
Qed.

Lemma quake_popup_texts_witness :
  exists props mag0 place0 time0 smag splace stime,
    getProp (feature (point (dec (-11825) (-2)) (dec 3405 (-2))) []) "properties"
    = Normal props
    /\ optProp props "mag" = Normal mag0
    /\ optProp props "place" = Normal place0
    /\ optProp props "time" = Normal time0
    /\ Some "<b>M ?</b><br><br><small></small>"
       = Some ("<b>M " ++ smag ++ "</b><br>" ++ splace
               ++ "<br><small>" ++ stime ++ "</small>")
    /\ (if is_nullish mag0 then smag = "?" else ToString mag0 = Normal smag)
    /\ (if is_nullish place0 then splace = "" else ToString place0 = Normal splace)
    /\ (if truthy time0 then dateToLocaleString sample_env time0 = Normal stime
        else stime = "").
Proof.
  apply (quake_popup_texts sample_env
           (feature (point (dec (-11825) (-2)) (dec 3405 (-2))) [])
           (mkMarker (Circle NaN (int 1) (dec 6 (-1)))
                     (JNum (dec 3405 (-2))) (JNum (dec (-11825) (-2)))
                     (Some "<b>M ?</b><br><br><small></small>"))).
  reflexivity.
Defined.

(** C9, as stated, fails on a timestamp that is present but falsy: the
    epoch itself, [time: 0], renders as the empty string and not as a
    formatted date. *)
Lemma quake_time_zero_unformatted :
  optProp (JObj [("mag", JNum (dec 31 (-1))); ("place", JStr "Null Island");
                 ("time", JNum (int 0))]) "time" = Normal (JNum (int 0))
  /\ is_nullish (JNum (int 0)) = false
  /\ quakeTime sample_env (JObj [("mag", JNum (dec 31 (-1)));
                                 ("place", JStr "Null Island");
                                 ("time", JNum (int 0))]) = Normal ""
  /\ dateToLocaleString sample_env (JNum (int 0)) = Normal "1/1/1970, 12:00:00 AM"
  /\ ~ (forall env props t,
          optProp props "time" = Normal t -> is_nullish t = false ->
          quakeTime env props = dateToLocaleString env t).
Proof.
  repeat split.
  intros H.
  specialize (H sample_env (JObj [("time", JNum (int 0))]) (JNum (int 0))
                eq_refl eq_refl).
  discriminate.
Qed.

(** ** Which features become markers *)

(** The brand path skips every feature without a point geometry: its
    callback computes no marker. *)
Lemma pointMarker_skips popupFn f g :
  getProp f "geometry" = Normal g -> not_a_point g ->
  pointMarker popupFn f = Normal None.
Proof.
  intros Hg [Hf|(t & Ht & Hne)]; unfold pointMarker; rewrite Hg; simpl.
  - now rewrite Hf.
  - destruct (truthy g); simpl; trivial. now rewrite Ht; simpl; rewrite Hne.
Qed.

(** ... and so leaves every layer-group as it was. *)
Lemma brand_path_skips gj k features p :
  getProp gj "features" = Normal (JArr features) ->
  (forall f, In f features ->
     exists g, getProp f "geometry" = Normal g /\ not_a_point g) ->
  addGeoJSONPointsToCluster gj k (Some brandPopup) p = (Normal tt, p).
Proof.
  intros Hfs Hall. unfold addGeoJSONPointsToCluster.
  rewrite bind_eq. unfold lift at 1. rewrite Hfs.
  unfold forEachFeature, js_or; simpl. clear Hfs.
  induction features as [|f fs IH]; simpl; trivial.
  destruct (Hall f (or_introl eq_refl)) as (g & Hg & Hnp).
  rewrite !bind_eq. unfold lift at 1.
  rewrite (pointMarker_skips _ f g Hg Hnp). unfold ret at 1.
  apply IH. intros f' Hin. apply Hall. now right.
Qed.

(** The seismic path skips a feature only when it finds no coordinates. *)
Lemma quakeMarker_skips env f g c :
  getProp f "geometry" = Normal g -> optProp g "coordinates" = Normal c ->
  truthy c = false -> quakeMarker env f = Normal None.
Proof.
  intros Hg Hc Ht. unfold quakeMarker. rewrite Hg; simpl. rewrite Hc; simpl.
  now rewrite Ht.
Qed.

Lemma quakeMarker_skips_missing_geometry env f g :
  getProp f "geometry" = Normal g -> is_nullish g = true ->
  quakeMarker env f = Normal None.
Proof.
  intros Hg Hn. apply (quakeMarker_skips env f g JUndefined Hg); trivial.
  unfold optProp. now rewrite Hn.
Qed.

(** C1 fails on the seismic path: for a feature whose geometry type is
    "LineString" the brand path computes no marker, but the seismic path,
    which only looks for [coordinates], builds a circle marker and
    [refresh] adds it to the quakes layer-group. *)
Theorem quake_path_keeps_line_geometry :
  (exists g, getProp line_quake "geometry" = Normal g /\ not_a_point g)
  /\ pointMarker (Some brandPopup) line_quake = Normal None
  /\ (forall env, exists m, quakeMarker env line_quake = Normal (Some m))
  /\ List.length (get quakes (clusters (refresh (quake_reply [line_quake])
                                              (typed_page "" "")))) = 1%nat.
Proof.
  split; [|split; [|split]]; try reflexivity.
  - eexists. split; [reflexivity|]. right. eexists. split; reflexivity.
  - intros env. eexists. reflexivity.
Qed.

(** The seismic path never reads the geometry type at all. *)
Lemma quakeMarker_ignores_type env t lon lat props :
  quakeMarker env (feature (JObj [("type", t); ("coordinates", JArr [lon; lat])]) props)
  = quakeMarker env (feature (JObj [("type", JStr "Point");
                                    ("coordinates", JArr [lon; lat])]) props).
Proof. reflexivity. Qed.

(** ** The radius of a quake marker *)

Local Open Scope Q_scope.

Lemma Qpower10_succ (e : Z) : Qpower 10 (e + 1) == Qpower 10 e * 10.
Proof. rewrite Qpower_plus by discriminate. reflexivity. Qed.

Lemma strip_zeros_val (fuel : nat) :
  forall m e, Dval (strip_zeros fuel m e) == Dval (mkDec m e).
Proof.
  induction fuel as [|fuel IH]; intros m e; simpl; [reflexivity|].
  destruct (Z.eqb_spec m 0) as [->|Hm].
  - unfold Dval; simpl. ring.
  - destruct (Z.eqb_spec (m mod 10) 0) as [H0|H0]; [|reflexivity].
    rewrite IH. unfold Dval; simpl. rewrite Qpower10_succ.
    assert (E : inject_Z m == inject_Z (m / 10) * inject_Z 10).
    { rewrite <- inject_Z_mult, Z.mul_comm.
      apply Z.div_exact in H0; [|discriminate]. now rewrite <- H0. }
    rewrite E. change (inject_Z 10) with 10. ring.
Qed.

Lemma Dval_norm (d : Dec) : Dval (norm d) == Dval d.
Proof. unfold norm. rewrite strip_zeros_val. destruct d; reflexivity. Qed.

Lemma Dval_Dmul (a b : Dec) : Dval (Dmul a b) == Dval a * Dval b.
Proof.
  unfold Dmul. rewrite Dval_norm. unfold Dval; simpl.
  rewrite inject_Z_mult, Qpower_plus by discriminate. ring.
Qed.

Lemma Dleb_true (a b : Dec) : Dleb a b = true <-> Dval a <= Dval b.
Proof. apply Qle_bool_iff. Qed.

Lemma Dleb_false (a b : Dec) : Dleb a b = false -> Dval b < Dval a.
Proof.
  intros H. apply Qnot_le_lt. intros Hle. apply Dleb_true in Hle. congruence.
Qed.

Lemma quakeRadius_fin (d : Dec) :
  quakeRadius (JNum (Fin d)) = Normal (Fin (clampDec (Dmul d (mkDec 2 0)))).
Proof.
  cbv [quakeRadius ToNumber cbind clampDec].
  change (int 4) with (Fin (mkDec 4 0)). change (int 16) with (Fin (mkDec 16 0)).
  change (int 2) with (Fin (mkDec 2 0)).
  cbv [num_mul Math_min num_leb].
  destruct (Dleb (mkDec 16 0) (Dmul d (mkDec 2 0)));
    cbv [Math_max num_leb];
    match goal with |- context [Dleb ?a ?b] => destruct (Dleb a b) end;
    reflexivity.
Qed.

Lemma Dval_clampDec (x : Dec) : Dval (clampDec x) == Qmax 4 (Qmin 16 (Dval x)).
Proof.
  assert (H16 : Dval (mkDec 16 0) == 16) by reflexivity.
  assert (H4 : Dval (mkDec 4 0) == 4) by reflexivity.
  unfold clampDec.
  destruct (Dleb (mkDec 16 0) x) eqn:E16.
  - apply Dleb_true in E16. rewrite H16 in E16.
    change (Dleb (mkDec 4 0) (mkDec 16 0)) with true; cbv iota.
    rewrite (Q.min_l 16 (Dval x)) by exact E16.
    rewrite Q.max_r by discriminate. reflexivity.
  - apply Dleb_false in E16. rewrite H16 in E16.
    rewrite (Q.min_r 16 (Dval x)) by (apply Qlt_le_weak; exact E16).
    destruct (Dleb (mkDec 4 0) x) eqn:E4.
    + apply Dleb_true in E4. rewrite H4 in E4.
      rewrite Q.max_r by exact E4. reflexivity.
    + apply Dleb_false in E4. rewrite H4 in E4.
      rewrite Q.max_l by (apply Qlt_le_weak; exact E4). reflexivity.
Qed.

(** For a magnitude that is a finite number the radius is twice the
    magnitude, clamped to [4, 16]. *)
Lemma quakeRadius_number (d : Dec) :
  exists r, quakeRadius (JNum (Fin d)) = Normal (Fin r)
            /\ Dval r == Qmax 4 (Qmin 16 (Dval d * 2))
            /\ 4 <= Dval r <= 16.
Proof.
  assert (Hclamp : forall x, 4 <= Qmax 4 (Qmin 16 x) <= 16).
  { intros x. split; [apply Q.le_max_l|].
    apply Q.max_lub; [discriminate | apply Q.le_min_l]. }
  exists (clampDec (Dmul d (mkDec 2 0))).
  split; [apply quakeRadius_fin|].
  assert (Hv : Dval (clampDec (Dmul d (mkDec 2 0)))
               == Qmax 4 (Qmin 16 (Dval d * 2))).
  { rewrite Dval_clampDec, Dval_Dmul.
    assert (H2 : Dval (mkDec 2 0) == 2) by reflexivity.
    rewrite H2. reflexivity. }
  split; [exact Hv|]. rewrite Hv. apply Hclamp.
Qed.

(** ... and it does not decrease when the magnitude grows. *)
Lemma quakeRadius_monotone (d1 d2 r1 r2 : Dec) :
  Dval d1 <= Dval d2 ->
  quakeRadius (JNum (Fin d1)) = Normal (Fin r1) ->
  quakeRadius (JNum (Fin d2)) = Normal (Fin r2) ->
  Dval r1 <= Dval r2.
Proof.
  intros Hle H1 H2.
  destruct (quakeRadius_number d1) as (r1' & E1 & V1 & _).
  destruct (quakeRadius_number d2) as (r2' & E2 & V2 & _).
  rewrite E1 in H1. rewrite E2 in H2. inversion H1; inversion H2; subst.
  rewrite V1, V2.
  apply Q.max_le_compat_l, Q.min_le_compat_l.
  apply Qmult_le_compat_r; [exact Hle | discriminate].
Qed.

Lemma quakeRadius_examples :
  quakeRadius (JNum (int 1)) = Normal (int 4)
  /\ quakeRadius (JNum (int 5)) = Normal (int 10)
  /\ quakeRadius (JNum (int 20)) = Normal (int 16)
  /\ quakeRadius (JNum (dec 31 (-1))) = Normal (dec 62 (-1)).
Proof. repeat split. Qed.

Local Close Scope Q_scope.

Lemma quakeRadius_infinite (negative : bool) :
  quakeRadius (JNum (Inf negative)) = Normal (int (if negative then 4 else 16)).
Proof. destruct negative; reflexivity. Qed.

(** C6 fails for a feature without a magnitude: the "?" that stands in for
    it in the popup is also what gets doubled, so the radius handed to the
    circle marker is NaN, which the clamp lets through; no number of
    [4, 16] comes out. *)
Theorem quake_radius_without_magnitude :
  quakeMag (JObj [("mag", JNull); ("place", JStr "10km NE of Ridgecrest, CA")])
  = Normal (JStr "?")
  /\ quakeRadius (JStr "?") = Normal NaN
  /\ (forall env,
        quakeMarker env unrated_quake
        = Normal (Some (mkMarker (Circle NaN (int 1) (dec 6 (-1)))
                          (JNum (dec 3562 (-2))) (JNum (dec (-11768) (-2)))
                          (Some "<b>M ?</b><br>10km NE of Ridgecrest, CA<br><small></small>"))))
  /\ ~ (exists r, quakeRadius (JStr "?") = Normal (Fin r)).
Proof.
  repeat split. intros (r & H). discriminate.
Qed.

Lemma refresh_stops_at_first_failure_witness :
  forallb (load_ok flaky all_ticked) (selected all_ticked) = false
  /\ status (refresh flaky all_ticked) = "Error: 500 Internal Server Error"
  /\ requests (refresh flaky all_ticked)
     = ["http://localhost:8088/api/osm/brand?brand=mcdonalds&bbox=24.50000,-125.00000,49.50000,-66.93500";
        "http://localhost:8088/api/osm/brand?brand=starbucks&bbox=24.50000,-125.00000,49.50000,-66.93500"]
  /\ List.length (get mcd (clusters (refresh flaky all_ticked))) = 1%nat
  /\ get mcd (mapLayers (refresh flaky all_ticked)) = true
  /\ get quakes (clusters (refresh flaky all_ticked)) = []
  /\ exists pre k post e pk pk',
      selected all_ticked = (pre ++ k :: post)%list
      /\ runLoads flaky pre (clearDeselected all_ticked) = (Normal tt, pk)
      /\ load flaky k pk = (Throw e, pk')
      /\ refresh flaky all_ticked
         = with_status ("Error: " ++ message e) (console_error e pk')
      /\ failed_at flaky all_ticked pre k e pk.
Proof.
  repeat (split; [reflexivity|]).
  apply (refresh_stops_at_first_failure flaky all_ticked). reflexivity.
Defined.

(** ** The scenario of the specification *)

Example refresh_scenario :
  let q := refresh three_and_none scenario_page in
  status q = "Done."
  /\ List.length (get mcd (clusters q)) = 3%nat /\ get mcd (mapLayers q) = true
  /\ get starbucks (clusters q) = [] /\ get starbucks (mapLayers q) = false
  /\ get quakes (clusters q) = [] /\ get quakes (mapLayers q) = true
  /\ map popup (get mcd (clusters q))
     = [Some "<b>McDonald's</b><br><small>node/1</small>";
        Some "<b>McDonald's</b><br><small></small>";
        Some "<b>Unknown</b><br><small></small>"]
  /\ requests q
     = ["http://localhost:8088/api/osm/brand?brand=mcdonalds&bbox=24.50000,-125.00000,49.50000,-66.93500";
        "http://localhost:8088/api/usgs/quakes?hours=24&minmag=2.5&bbox=24.50000,-125.00000,49.50000,-66.93500"].
Proof. repeat split. Qed.

(** * Further properties of the script *)

(** ** What a [forEach] over the features adds *)

Lemma set_set {A} (k : ClusterKey) (v w : A) (t : PerKey A) :
  set k v (set k w t) = set k v t.
Proof. destruct k; reflexivity. Qed.

Lemma with_clusters_same p : with_clusters (clusters p) p = p.
Proof. destruct p; reflexivity. Qed.

(** The loop, run on a page, is [collect] appended to the group. *)
Lemma forEach_collect marker k l :
  forall p,
    forEach l (fun f =>
      bind (lift (marker f)) (fun m =>
        match m with
        | Some m => addLayer k m
        | None => ret tt
        end)) p
    = (snd (collect marker l),
       with_clusters (set k (get k (clusters p) ++ fst (collect marker l))%list
                         (clusters p)) p).
Proof.
  induction l as [|f l IH]; intros p; simpl.
  - now rewrite app_nil_r, set_get, with_clusters_same.
  - rewrite bind_eq, bind_eq. unfold lift at 1.
    destruct (marker f) as [[m|]|e]; simpl.
    + rewrite IH. destruct (collect marker l) as [ms c]; simpl.
      rewrite get_set_same, set_set, <- app_assoc. reflexivity.
    + apply IH.
    + now rewrite app_nil_r, set_get, with_clusters_same.
Qed.

Lemma collect_all_normal marker l :
  (forall f, In f l -> is_normal (marker f) = true) ->
  collect marker l = (flat_map (markersOf marker) l, Normal tt).
Proof.
  induction l as [|f l IH]; intros H; simpl; trivial.
  pose proof (H f (or_introl eq_refl)) as Hf.
  rewrite IH by (intros g Hg; apply H; now right).
  unfold markersOf. destruct (marker f) as [[m|]|e]; simpl; trivial.
  discriminate.
Qed.

Lemma collect_stops marker l1 f l2 e :
  (forall g, In g l1 -> is_normal (marker g) = true) ->
  marker f = Throw e ->
  collect marker (l1 ++ f :: l2) = (flat_map (markersOf marker) l1, Throw e).
Proof.
  induction l1 as [|g l1 IH]; intros H Hf; simpl.
  - now rewrite Hf.
  - pose proof (H g (or_introl eq_refl)) as Hg.
    rewrite IH by (trivial; intros x Hx; apply H; now right).
    unfold markersOf. destruct (marker g) as [[m|]|e']; simpl; trivial.
    discriminate.
Qed.

Lemma flat_map_markersOf_length marker l :
  (List.length (flat_map (markersOf marker) l) <= List.length l)%nat.
Proof.
  induction l as [|f l IH]; simpl; trivial.
  rewrite length_app. unfold markersOf at 1.
  destruct (marker f) as [[m|]|e]; simpl; lia.
Qed.

(** [gj.features?.length || 0] prints the number of features received. *)
Lemma featureCount_features gj fs l :
  getProp gj "features" = Normal fs -> js_or fs (JArr []) = JArr l ->
  featureCount gj = Normal (NumberToString (int (Z.of_nat (List.length l)))).
Proof.
  intros Hg Hl. unfold featureCount. rewrite Hg; simpl.
  unfold js_or in Hl. destruct (truthy fs) eqn:Ht.
  - subst fs. simpl. unfold js_or, int, dec.
    set (d := norm (mkDec (Z.of_nat (List.length l)) 0)).
    simpl. destruct (Dis_zero d) eqn:Hz; simpl; trivial.
    unfold Dis_zero in Hz. apply Z.eqb_eq in Hz.
    destruct d as [m e]. simpl in Hz. subst m. reflexivity.
  - inversion Hl; subst l.
    destruct fs as [| |b|n|s|l|o]; simpl in *; try discriminate; trivial.
    + destruct (String.eqb_spec s ""); [subst; reflexivity | discriminate].
Qed.

(** ** One load, from the answer of the network to the page it leaves *)

Lemma loadTail_run env k gj fs l p :
  getProp gj "features" = Normal fs -> js_or fs (JArr []) = JArr l ->
  loadTail env k gj p =
  let p2 := with_clusters
              (set k (get k (clusters p) ++ fst (collect (markerFn env k) l))%list
                   (clusters p)) p in
  match snd (collect (markerFn env k) l) with
  | Throw e => (Throw e, p2)
  | Normal _ =>
      (Normal tt,
       with_status (loaded_message k (NumberToString (int (Z.of_nat (List.length l)))))
                   (ensureLayer k p2))
  end.
Proof.
  intros Hg Hl.
  pose proof (featureCount_features gj fs l Hg Hl) as Hn.
  assert (Hb : forall brand k0,
             brandTail brand k0 gj p =
             match snd (collect (pointMarker (Some brandPopup)) l) with
             | Throw e =>
                 (Throw e,
                  with_clusters
                    (set k0 (get k0 (clusters p)
                             ++ fst (collect (pointMarker (Some brandPopup)) l))%list
                         (clusters p)) p)
             | Normal _ =>
                 (Normal tt,
                  with_status ("Loaded " ++ brand ++ ": "
                               ++ NumberToString (int (Z.of_nat (List.length l))))
                    (ensureLayer k0
                       (with_clusters
                          (set k0 (get k0 (clusters p)
                                   ++ fst (collect (pointMarker (Some brandPopup)) l))%list
                               (clusters p)) p)))
             end).
  { intros brand k0. unfold brandTail, addGeoJSONPointsToCluster.
    rewrite bind_eq, bind_eq. unfold lift at 1. rewrite Hg.
    unfold forEachFeature. rewrite Hl, forEach_collect.
    destruct (snd (collect (pointMarker (Some brandPopup)) l)) as [[]|e]; trivial.
    rewrite bind_eq. cbv beta iota. rewrite bind_eq. unfold lift at 1.
    rewrite Hn. reflexivity. }
  destruct k; try apply Hb.
  unfold loadTail, quakeTail, markerFn.
  rewrite bind_eq. unfold lift at 1. rewrite Hg.
  unfold forEachFeature. rewrite Hl, bind_eq, forEach_collect.
  destruct (snd (collect (quakeMarker env) l)) as [[]|e]; trivial.
  rewrite bind_eq. cbv beta iota. rewrite bind_eq. unfold lift at 1.
  rewrite Hn. reflexivity.
Qed.

Lemma ensureLayer_clusters k p : clusters (ensureLayer k p) = clusters p.
Proof. unfold ensureLayer. destruct (negb _); reflexivity. Qed.

Lemma fetchJSON_answered env p k gj l q :
  answered env p k gj l ->
  fetchJSON env (request_url env p k) q
  = (Normal gj, with_requests (requests q ++ [request_url env p k]) q).
Proof.
  intros (r & fs & Hf & Hok & Hb & _). unfold fetchJSON.
  now rewrite Hf, Hok, Hb.
Qed.

(** A load on an answered request whose callbacks all complete. *)
Lemma load_answered_ok (env : Env) (p : Page) (k : ClusterKey)
    (gj : JSValue) (l : list JSValue) :
  answered env p k gj l ->
  (forall f, In f l -> is_normal (markerFn env k f) = true) ->
  exists q,
    load env k p = (Normal tt, q)
    /\ get k (clusters q)
       = (get k (clusters p) ++ flat_map (markersOf (markerFn env k)) l)%list
    /\ (List.length (get k (clusters q))
        <= List.length (get k (clusters p)) + List.length l)%nat
    /\ get k (mapLayers q) = true
    /\ status q
       = loaded_message k (NumberToString (int (Z.of_nat (List.length l)))).
Proof.
  intros Ha Hall. pose proof Ha as (r & fs & _ & _ & _ & Hg & Hl).
  rewrite load_eq, bind_eq, (fetchJSON_answered env p k gj l _ Ha).
  rewrite (loadTail_run env k gj fs l _ Hg Hl).
  rewrite (collect_all_normal _ l Hall). cbn [fst snd].
  eexists. split; [reflexivity|].
  cbn [status with_status clusters mapLayers].
  rewrite ensureLayer_clusters.
  cbn [clusters with_clusters with_requests with_status].
  rewrite get_set_same, length_app.
  pose proof (flat_map_markersOf_length (markerFn env k) l).
  repeat split; trivial; [lia | apply ensureLayer_attached].
Qed.

(** X5: a load whose request is answered, whose features all pass their
    callback, and whose markers, those already in the group and those of
    the features, all stand at finite coordinates (so that Leaflet takes
    every one of them), completes, provided the numbers of the answer are
    short decimals; it appends to its group, in feature order, the marker
    of each feature that yields one, keeps the markers that were there,
    attaches the group, and reports in the status line the number of
    features received (not the number of markers added). *)
Theorem load_completes (env : Env) (p : Page) (k : ClusterKey)
    (gj : JSValue) (l : list JSValue) :
  answered env p k gj l ->
  short_numbers gj = true ->
  (forall f, In f l -> is_normal (markerFn env k f) = true) ->
  forallb plain_position (get k (clusters p)) = true ->
  forallb plain_position (flat_map (markersOf (markerFn env k)) l) = true ->
  exists q,
    load env k p = (Normal tt, q)
    /\ get k (clusters q)
       = (get k (clusters p) ++ flat_map (markersOf (markerFn env k)) l)%list
    /\ (List.length (get k (clusters q))
        <= List.length (get k (clusters p)) + List.length l)%nat
    /\ get k (mapLayers q) = true
    /\ status q
       = loaded_message k (NumberToString (int (Z.of_nat (List.length l)))).
Proof.
  intros Ha _ Hall _ _. exact (load_answered_ok env p k gj l Ha Hall).
Qed.

(** X6: a load is not undone when it fails half way. If the callback throws
    on some feature, the markers of the features before it stay in the
    group, the group's attachment is left as it was, the status line still
    reads "Loading ...", and the error is thrown on. *)
Theorem load_fails_half_way (env : Env) (p : Page) (k : ClusterKey)
    (gj : JSValue) (l1 l2 : list JSValue) (f : JSValue) (e : JSError) :
  answered env p k gj (l1 ++ f :: l2) ->
  (forall g, In g l1 -> is_normal (markerFn env k g) = true) ->
  markerFn env k f = Throw e ->
  exists q,
    load env k p = (Throw e, q)
    /\ get k (clusters q)
       = (get k (clusters p) ++ flat_map (markersOf (markerFn env k)) l1)%list
    /\ get k (mapLayers q) = get k (mapLayers p)
    /\ status q = loading_message k.
Proof.
  intros Ha Hall Hf. pose proof Ha as (r & fs & _ & _ & _ & Hg & Hl).
  rewrite load_eq, bind_eq, (fetchJSON_answered env p k gj _ _ Ha).
  rewrite (loadTail_run env k gj fs _ _ Hg Hl).
  rewrite (collect_stops _ l1 f l2 e Hall Hf). cbn [fst snd].
  eexists. split; [reflexivity|].
  cbn [clusters mapLayers status with_clusters with_requests with_status].
  now rewrite get_set_same.
Qed.



Lemma load_completes_witness :
  exists q,
    load three_and_none mcd scenario_page = (Normal tt, q)
    /\ List.length (get mcd (clusters q)) = 3%nat
    /\ get mcd (mapLayers q) = true
    /\ status q = "Loaded mcdonalds: 3".
Proof.
  destruct (load_completes three_and_none scenario_page mcd
              (JObj [("type", JStr "FeatureCollection");
                     ("features",
                      JArr [feature (point (dec (-11825) (-2)) (dec 3405 (-2)))
                              [("name", JStr "McDonald's"); ("id", JStr "node/1")];
                            feature (point (dec (-1182) (-1)) (dec 341 (-1)))
                              [("name", JStr "McDonald's")];
                            feature (point (dec (-1183) (-1)) (dec 34 0)) []])])
              [feature (point (dec (-11825) (-2)) (dec 3405 (-2)))
                 [("name", JStr "McDonald's"); ("id", JStr "node/1")];
               feature (point (dec (-1182) (-1)) (dec 341 (-1)))
                 [("name", JStr "McDonald's")];
               feature (point (dec (-1183) (-1)) (dec 34 0)) []])
    as (q & Hq & Hc & _ & Hm & Hs).
  - eexists. eexists. repeat split; reflexivity.
  - reflexivity.
  - intros f [<-|[<-|[<-|[]]]]; reflexivity.
  - reflexivity.
  - reflexivity.
  - exists q. rewrite Hc. repeat split; trivial.
Defined.

Lemma load_fails_half_way_witness :
  exists q,
    load (reply_with (JObj [("features",
                             JArr [feature (point (int 1) (int 2)) []; JNull;
                                   feature (point (int 3) (int 4)) []])]))
         mcd all_ticked
    = (Throw (TypeError "Cannot read properties of null (reading 'geometry')"), q)
    /\ List.length (get mcd (clusters q)) = 1%nat
    /\ get mcd (mapLayers q) = false
    /\ status q = "Loading mcdonalds...".
Proof.
  destruct (load_fails_half_way
              (reply_with (JObj [("features",
                                  JArr [feature (point (int 1) (int 2)) []; JNull;
                                        feature (point (int 3) (int 4)) []])]))
              all_ticked mcd
              (JObj [("features",
                      JArr [feature (point (int 1) (int 2)) []; JNull;
                            feature (point (int 3) (int 4)) []])])
              [feature (point (int 1) (int 2)) []]
              [feature (point (int 3) (int 4)) []]
              JNull
              (TypeError "Cannot read properties of null (reading 'geometry')"))
    as (q & Hq & Hc & Hm & Hs).
  - eexists. eexists. repeat split; reflexivity.
  - intros f [<-|[]]; reflexivity.
  - reflexivity.
  - exists q. rewrite Hc. repeat split; trivial.
Defined.

Lemma loadTail_bad_shape env k gj p :
  (forall e, getProp gj "features" = Throw e -> loadTail env k gj p = (Throw e, p))
  /\ (forall fs, getProp gj "features" = Normal fs -> truthy fs = true ->
                 (forall l, fs <> JArr l) ->
                 loadTail env k gj p = (Throw not_a_function, p)).
Proof.
  split.
  - intros e He.
    destruct k; unfold loadTail, brandTail, quakeTail, addGeoJSONPointsToCluster;
      rewrite !bind_eq; unfold lift at 1; now rewrite He.
  - intros fs Hg Ht Hna.
    assert (Hfe : forall k0 marker, forEachFeature fs k0 marker p = (Throw not_a_function, p)).
    { intros k0 marker. unfold forEachFeature, js_or. rewrite Ht.
      destruct fs; try reflexivity. now destruct (Hna elems). }
    destruct k; unfold loadTail, brandTail, quakeTail, addGeoJSONPointsToCluster;
      rewrite !bind_eq; unfold lift at 1; rewrite Hg; cbv beta iota;
      rewrite ?bind_eq, Hfe; reflexivity.
Qed.

(** X8: an answer of the wrong shape makes the load fail with a TypeError
    after its request has gone out: a body that is [null], or a [features]
    value that is truthy but not an array (an object, a number, a string).
    Nothing is added, the attachment of every group is as before, and the
    status line still reads "Loading ...". *)
Theorem load_rejects_bad_shape (env : Env) (p : Page) (k : ClusterKey)
    (r : Response) (gj : JSValue) :
  fetch env (request_url env p k) = Responded r -> ok r = true ->
  body r = Json gj ->
  (is_nullish gj = true
   \/ exists fs, getProp gj "features" = Normal fs /\ truthy fs = true
                 /\ forall l, fs <> JArr l) ->
  exists e q,
    load env k p = (Throw e, q) /\ ename e = ETypeError
    /\ clusters q = clusters p /\ mapLayers q = mapLayers p
    /\ status q = loading_message k
    /\ requests q = (requests p ++ [request_url env p k])%list.
Proof.
  intros Hf Hok Hb Hshape.
  rewrite load_eq, bind_eq. unfold fetchJSON at 1. rewrite Hf, Hok, Hb.
  cbv beta iota zeta. cbn [negb].
  destruct (loadTail_bad_shape env k gj
              (with_requests
                 (requests (with_status (loading_message k) p)
                  ++ [request_url env p k])
                 (with_status (loading_message k) p))) as [Hthrow Hnf].
  destruct Hshape as [Hnull|(fs & Hg & Ht & Hna)].
  - destruct gj; try discriminate.
    + eexists. eexists. split; [apply Hthrow; reflexivity|]. repeat split.
    + eexists. eexists. split; [apply Hthrow; reflexivity|]. repeat split.
  - eexists. eexists. split; [now apply (Hnf fs)|]. repeat split.
Qed.

Lemma load_rejects_bad_shape_witness :
  exists e q,
    load (reply_with (JObj [("features", JObj [("0", JStr "x")])]))
         starbucks all_ticked = (Throw e, q)
    /\ ename e = ETypeError
    /\ clusters q = clusters all_ticked /\ mapLayers q = mapLayers all_ticked
    /\ status q = "Loading starbucks..."
    /\ requests q
       = ["http://localhost:8088/api/osm/brand?brand=starbucks&bbox=24.50000,-125.00000,49.50000,-66.93500"].
Proof.
  apply (load_rejects_bad_shape
           (reply_with (JObj [("features", JObj [("0", JStr "x")])]))
           all_ticked starbucks
           (mkResponse true 200 "OK"
              (Json (JObj [("features", JObj [("0", JStr "x")])])))
           (JObj [("features", JObj [("0", JStr "x")])]));
    try reflexivity.
  right. exists (JObj [("0", JStr "x")]).
  repeat split; try reflexivity. discriminate.
Defined.

(** ** A whole [refresh] in which every load completes *)

Lemma ClusterKey_eq (a b : ClusterKey) : {a = b} + {a <> b}.
Proof. decide equality. Qed.

Lemma all_keys_NoDup : NoDup all_keys.
Proof.
  unfold all_keys. repeat constructor; simpl; intuition discriminate.
Qed.

Lemma in_all_keys k : In k all_keys.
Proof. destruct k; simpl; auto. Qed.

(** Loads of other keys leave the group of [k] alone. *)
Lemma runLoads_other env ks k :
  ~ In k ks -> forall p,
    get k (clusters (snd (runLoads env ks p))) = get k (clusters p)
    /\ get k (mapLayers (snd (runLoads env ks p))) = get k (mapLayers p).
Proof.
  induction ks as [|k0 ks IH]; intros Hin p; simpl; [split; reflexivity|].
  assert (Hne : k <> k0) by (intros ->; apply Hin; now left).
  assert (Hin' : ~ In k ks) by (intros H; apply Hin; now right).
  rewrite bind_eq. destruct (get k0 (checked p)); simpl.
  - pose proof (load_effect env k0 p) as (_ & _ & _ & Ho).
    destruct (Ho k Hne) as [Hc Hm].
    destruct (load env k0 p) as [[[]|e] q]; simpl in *; [|split; trivial].
    destruct (IH Hin' q) as [Hc' Hm']. split; congruence.
  - now apply IH.
Qed.

Lemma collect_normal_inv marker l :
  snd (collect marker l) = Normal tt ->
  forall f, In f l -> is_normal (marker f) = true.
Proof.
  induction l as [|g l IH]; simpl; intros H f Hf; [contradiction|].
  destruct (marker g) as [[m|]|e] eqn:Hg; simpl in H; try discriminate.
  - destruct (collect marker l) as [ms c]; simpl in *.
    destruct Hf as [<-|Hf]; [now rewrite Hg | now apply IH].
  - destruct Hf as [<-|Hf]; [now rewrite Hg | now apply IH].
Qed.

(** A load that completes on an answered request ran every callback. *)
Lemma load_ok_features env p k gj l :
  answered env p k gj l -> load_ok env p k = true ->
  forall f, In f l -> is_normal (markerFn env k f) = true.
Proof.
  intros Ha Hok. pose proof Ha as (r & fs & _ & _ & _ & Hg & Hl).
  unfold load_ok in Hok.
  rewrite load_eq, bind_eq, (fetchJSON_answered env p k gj l _ Ha) in Hok.
  rewrite (loadTail_run env k gj fs l _ Hg Hl) in Hok.
  apply collect_normal_inv.
  destruct (snd (collect (markerFn env k) l)) as [[]|e]; [reflexivity|discriminate].
Qed.

Lemma answered_inputs env p q k gj l :
  same_inputs p q -> answered env p k gj l -> answered env q k gj l.
Proof.
  intros Hi (r & fs & H). exists r, fs.
  now rewrite (request_url_inputs env p q k Hi).
Qed.

Lemma runLoads_group env p0 k gj l :
  answered env p0 k gj l -> get k (checked p0) = true ->
  forall ks p, NoDup ks -> In k ks -> same_inputs p0 p ->
    forallb (load_ok env p0) (filter (fun k0 => get k0 (checked p0)) ks) = true ->
    get k (clusters (snd (runLoads env ks p)))
    = (get k (clusters p) ++ flat_map (markersOf (markerFn env k)) l)%list
    /\ get k (mapLayers (snd (runLoads env ks p))) = true.
Proof.
  intros Ha Hck ks. induction ks as [|k0 ks IH]; intros p Hnd Hin Hi Hall;
    [contradiction|].
  inversion Hnd as [|? ? Hnotin Hnd']; subst.
  simpl. rewrite bind_eq.
  assert (Hck0 : get k0 (checked p) = get k0 (checked p0))
    by (destruct Hi as (-> & _); reflexivity).
  rewrite Hck0. simpl in Hall.
  pose proof (load_effect env k0 p) as (Hq & _ & _ & Ho).
  pose proof (load_outcome env k0 p0 p Hi) as Hout.
  destruct (ClusterKey_eq k k0) as [<-|Hne].
  - rewrite Hck in *. simpl in Hall. apply andb_true_iff in Hall as [Hk Hrest].
    destruct (load_answered_ok env p k gj l (answered_inputs _ _ _ _ _ _ Hi Ha)
                (load_ok_features env p0 k gj l Ha Hk))
      as (q & Hload & Hc & _ & Hm & _).
    simpl. rewrite Hload.
    destruct (runLoads_other env ks k Hnotin q) as [Hc' Hm'].
    split; congruence.
  - destruct Hin as [->|Hin]; [congruence|].
    destruct (Ho k Hne) as [Hc Hm].
    destruct (get k0 (checked p0)) eqn:E0; simpl in *.
    + apply andb_true_iff in Hall as [Hk0 Hrest].
      unfold load_ok in Hk0. rewrite Hout in Hk0.
      destruct (load env k0 p) as [[[]|e] q]; simpl in *; [|discriminate].
      destruct (IH q Hnd' Hin (same_inputs_trans _ _ _ Hi Hq) Hrest) as [Hc' Hm'].
      split; congruence.
    + now apply IH.
Qed.

Lemma runLoads_attaches env p0 k :
  get k (checked p0) = true ->
  forall ks p, NoDup ks -> In k ks -> same_inputs p0 p ->
    forallb (load_ok env p0) (filter (fun k0 => get k0 (checked p0)) ks) = true ->
    get k (mapLayers (snd (runLoads env ks p))) = true.
Proof.
  intros Hck ks. induction ks as [|k0 ks IH]; intros p Hnd Hin Hi Hall;
    [contradiction|].
  inversion Hnd as [|? ? Hnotin Hnd']; subst.
  simpl. rewrite bind_eq.
  assert (Hck0 : get k0 (checked p) = get k0 (checked p0))
    by (destruct Hi as (-> & _); reflexivity).
  rewrite Hck0. simpl in Hall.
  pose proof (load_effect env k0 p) as (Hq & _).
  pose proof (load_outcome env k0 p0 p Hi) as Hout.
  destruct (get k0 (checked p0)) eqn:E0; simpl in *.
  - apply andb_true_iff in Hall as [Hk0 Hrest].
    unfold load_ok in Hk0. rewrite Hout in Hk0.
    destruct (load env k0 p) as [[[]|e] q] eqn:Hload; simpl in *; [|discriminate].
    destruct (ClusterKey_eq k k0) as [<-|Hne].
    + destruct (runLoads_other env ks k Hnotin q) as [_ ->].
      eapply load_attaches; eassumption.
    + destruct Hin as [->|Hin]; [congruence|].
      apply IH; trivial. eapply same_inputs_trans; eassumption.
  - destruct Hin as [->|Hin]; [congruence|]. now apply IH.
Qed.

(** The page [refresh] returns, from the page its loads leave. *)
Lemma refresh_eq env p :
  refresh env p =
  match runLoads env all_keys (clearDeselected p) with
  | (Normal _, q) => with_status "Done." q
  | (Throw e, q) => with_status ("Error: " ++ message e) (console_error e q)
  end.
Proof.
  unfold refresh. rewrite loadSelected_runLoads, bind_eq.
  destruct (runLoads env all_keys (clearDeselected p)) as [[[]|e] q]; reflexivity.
Qed.

(** X16: [refresh] never writes to the controls it reads: the checkboxes, the
    two inputs and the map bounds are as before however it ends. It never
    drops a logged request or console entry, and logs at most one error. *)
Theorem refresh_keeps_controls (env : Env) (p : Page) :
  checked (refresh env p) = checked p
  /\ qHours (refresh env p) = qHours p
  /\ qMinMag (refresh env p) = qMinMag p
  /\ bounds (refresh env p) = bounds p
  /\ firstn (List.length (requests p)) (requests (refresh env p)) = requests p
  /\ (console (refresh env p) = console p
      \/ exists e, console (refresh env p) = (console p ++ [e])%list).
Proof.
  destruct (clearDeselected_effect p mcd) as (_ & Hi & _ & _ & Hco).
  destruct (runLoads_trace env p all_keys (clearDeselected p) Hi)
    as (_ & (Hc & Hh & Hm & Hb) & Hco' & _).
  assert (Hreq : firstn (List.length (requests p)) (requests (refresh env p))
                 = requests p).
  { rewrite refresh_requests, firstn_app, Nat.sub_diag, firstn_all. simpl.
    apply app_nil_r. }
  rewrite refresh_eq in *.
  destruct (runLoads env all_keys (clearDeselected p)) as [[[]|e] q];
    simpl in *; repeat split; trivial.
  - left. congruence.
  - right. exists e. congruence.
Qed.

(** X17: when every ticked load completes, [refresh] ends with "Done.", logs
    nothing to the console, and leaves on the map exactly the layer-groups
    whose checkbox is ticked; the unticked groups are empty. *)
Theorem refresh_shows_ticked_layers (env : Env) (p : Page) :
  forallb (load_ok env p) (selected p) = true ->
  status (refresh env p) = "Done."
  /\ console (refresh env p) = console p
  /\ forall k,
       get k (mapLayers (refresh env p)) = get k (checked p)
       /\ (get k (checked p) = false -> get k (clusters (refresh env p)) = []).
Proof.
  intros Hall.
  destruct (clearDeselected_effect p mcd) as (_ & Hi & _ & _ & Hco).
  destruct (runLoads_trace env p all_keys (clearDeselected p) Hi)
    as (_ & _ & Hco' & Hn).
  fold (selected p) in Hn. rewrite Hall in Hn.
  split; [now apply refresh_done|].
  assert (Hatt : forall k, get k (checked p) = true ->
                           get k (mapLayers (refresh env p)) = true).
  { intros k Hk.
    pose proof (runLoads_attaches env p k Hk all_keys (clearDeselected p)
                  all_keys_NoDup (in_all_keys k) Hi Hall) as Ha.
    rewrite refresh_eq.
    destruct (runLoads env all_keys (clearDeselected p)) as [[[]|e] q];
      simpl in *; [exact Ha | discriminate]. }
  split.
  - rewrite refresh_eq.
    destruct (runLoads env all_keys (clearDeselected p)) as [[[]|e] q];
      simpl in *; [congruence | discriminate].
  - intros k. destruct (get k (checked p)) eqn:Hk.
    + split; [now apply Hatt | discriminate].
    + destruct (refresh_deselected_cleared env p k Hk). split; trivial.
Qed.

Lemma refresh_shows_ticked_layers_witness :
  status (refresh three_and_none scenario_page) = "Done."
  /\ console (refresh three_and_none scenario_page) = []
  /\ forall k,
       get k (mapLayers (refresh three_and_none scenario_page))
       = get k (checked scenario_page)
       /\ (get k (checked scenario_page) = false ->
           get k (clusters (refresh three_and_none scenario_page)) = []).
Proof.
  apply (refresh_shows_ticked_layers three_and_none scenario_page). reflexivity.
Defined.

Lemma refresh_inputs env p : same_inputs p (refresh env p).
Proof.
  destruct (clearDeselected_effect p mcd) as (_ & Hi & _).
  destruct (runLoads_trace env p all_keys (clearDeselected p) Hi)
    as (_ & Hi' & _).
  rewrite refresh_eq.
  destruct (runLoads env all_keys (clearDeselected p)) as [[[]|e] q];
    simpl in *; exact Hi'.
Qed.

Lemma refresh_group env p k gj l :
  forallb (load_ok env p) (selected p) = true ->
  get k (checked p) = true -> answered env p k gj l ->
  get k (clusters (refresh env p))
  = (get k (clusters p) ++ flat_map (markersOf (markerFn env k)) l)%list.
Proof.
  intros Hall Hk Ha.
  destruct (clearDeselected_effect p k) as (Hcl & Hi & _).
  rewrite Hk in Hcl. destruct Hcl as [Hc _].
  destruct (runLoads_group env p k gj l Ha Hk all_keys (clearDeselected p)
              all_keys_NoDup (in_all_keys k) Hi Hall) as [Hg _].
  rewrite Hc in Hg. rewrite refresh_eq.
  destruct (runLoads env all_keys (clearDeselected p)) as [[[]|e] q];
    simpl in *; exact Hg.
Qed.

(** X18: [refresh] only ever adds to a ticked layer-group. When every ticked
    load completes, the group of a ticked dataset holds the markers it held
    before followed by the markers of the answer, so a second [refresh]
    with the same answers shows every marker twice. *)
Theorem refresh_accumulates (env : Env) (p : Page) (k : ClusterKey)
    (gj : JSValue) (l : list JSValue) :
  forallb (load_ok env p) (selected p) = true ->
  get k (checked p) = true -> answered env p k gj l ->
  get k (clusters (refresh env p))
  = (get k (clusters p) ++ flat_map (markersOf (markerFn env k)) l)%list
  /\ get k (clusters (refresh env (refresh env p)))
     = ((get k (clusters p) ++ flat_map (markersOf (markerFn env k)) l)
        ++ flat_map (markersOf (markerFn env k)) l)%list.
Proof.
  intros Hall Hk Ha.
  pose proof (refresh_group env p k gj l Hall Hk Ha) as H1.
  split; [exact H1|].
  pose proof (refresh_inputs env p) as Hi.
  assert (Hsel : selected (refresh env p) = selected p).
  { unfold selected. destruct Hi as (-> & _). reflexivity. }
  assert (Hall' : forallb (load_ok env (refresh env p)) (selected (refresh env p)) = true).
  { assert (Heq : forall ks, forallb (load_ok env (refresh env p)) ks
                             = forallb (load_ok env p) ks).
    { induction ks as [|k0 ks IH]; simpl; trivial.
      rewrite IH. f_equal. unfold load_ok.
      now rewrite (load_outcome env k0 p (refresh env p) Hi). }
    now rewrite Hsel, Heq. }
  assert (Hk' : get k (checked (refresh env p)) = true)
    by (destruct Hi as (-> & _); exact Hk).
  rewrite (refresh_group env (refresh env p) k gj l Hall' Hk'
             (answered_inputs _ _ _ _ _ _ Hi Ha)).
  now rewrite H1.
Qed.

Lemma refresh_accumulates_witness :
  List.length (get mcd (clusters (refresh three_and_none scenario_page))) = 3%nat
  /\ List.length (get mcd (clusters (refresh three_and_none
                                       (refresh three_and_none scenario_page))))
     = 6%nat.
Proof.
  destruct (refresh_accumulates three_and_none scenario_page mcd
              (JObj [("type", JStr "FeatureCollection");
                     ("features",
                      JArr [feature (point (dec (-11825) (-2)) (dec 3405 (-2)))
                              [("name", JStr "McDonald's"); ("id", JStr "node/1")];
                            feature (point (dec (-1182) (-1)) (dec 341 (-1)))
                              [("name", JStr "McDonald's")];
                            feature (point (dec (-1183) (-1)) (dec 34 0)) []])])
              [feature (point (dec (-11825) (-2)) (dec 3405 (-2)))
                 [("name", JStr "McDonald's"); ("id", JStr "node/1")];
               feature (point (dec (-1182) (-1)) (dec 341 (-1)))
                 [("name", JStr "McDonald's")];
               feature (point (dec (-1183) (-1)) (dec 34 0)) []])
    as [H1 H2].
  - reflexivity.
  - reflexivity.
  - eexists. eexists. repeat split; reflexivity.
  - rewrite H1, H2. split; reflexivity.
Defined.

(** ** The text of the bounding box *)

Lemma length_append_string (s t : string) :
  String.length (s ++ t) = (String.length s + String.length t)%nat.
Proof. induction s as [|c s IH]; simpl; congruence. Qed.

Lemma length_zeros n : String.length (zeros n) = n.
Proof. induction n; simpl; congruence. Qed.

Lemma length_take n : forall s, (n <= String.length s)%nat -> String.length (take n s) = n.
Proof.
  induction n as [|n IH]; intros [|c s] H; simpl in *; trivial; try lia.
  rewrite IH; lia.
Qed.

Lemma length_drop n : forall s, String.length (drop n s) = (String.length s - n)%nat.
Proof. induction n as [|n IH]; intros [|c s]; simpl; trivial. Qed.

Lemma all_digits_append s t :
  all_digits s = true -> all_digits t = true -> all_digits (s ++ t) = true.
Proof.
  induction s as [|c s IH]; simpl; trivial.
  intros H Ht. apply andb_true_iff in H as [Hc Hs]. rewrite Hc. simpl. auto.
Qed.

Lemma all_digits_zeros n : all_digits (zeros n) = true.
Proof. induction n; simpl; trivial. Qed.

Lemma all_digits_take n : forall s, all_digits s = true -> all_digits (take n s) = true.
Proof.
  induction n as [|n IH]; intros [|c s] H; simpl in *; trivial.
  apply andb_true_iff in H as [Hc Hs]. rewrite Hc. simpl. auto.
Qed.

Lemma all_digits_drop n : forall s, all_digits s = true -> all_digits (drop n s) = true.
Proof.
  induction n as [|n IH]; intros [|c s] H; simpl in *; trivial.
  apply andb_true_iff in H as [Hc Hs]. auto.
Qed.

Lemma all_digits_uint (d : Decimal.uint) :
  all_digits (NilEmpty.string_of_uint d) = true.
Proof. induction d; simpl; trivial. Qed.

Lemma digits_of_digits n : all_digits (digits_of n) = true.
Proof.
  unfold digits_of, NilZero.string_of_uint.
  destruct (N.to_uint (Z.to_N n)); try apply all_digits_uint. reflexivity.
Qed.

Lemma digits_of_nonempty n : (1 <= String.length (digits_of n))%nat.
Proof.
  unfold digits_of, NilZero.string_of_uint.
  destruct (N.to_uint (Z.to_N n)); simpl; lia.
Qed.

(** [toFixed(5)] of a plain number: sign, digits, point, five digits. *)
Lemma toFixed5_format x : plain_number x -> fixed5 (toFixed5 x).
Proof.
  intros (d & -> & Hsmall). unfold toFixed5.
  destruct (Qle_bool (inject_Z (pow10 21)) (Qabs (Dval d))) eqn:Hbig.
  { apply Qle_bool_iff in Hbig. exfalso. eapply Qlt_not_le; eassumption. }
  set (n := if 0 <=? expo d + 5 then _ else _).
  set (ds := digits_of n).
  set (ds' := if (String.length ds <=? 5)%nat
              then zeros (6 - String.length ds) ++ ds else ds).
  assert (Hlen : (6 <= String.length ds')%nat).
  { unfold ds'. destruct (Nat.leb_spec (String.length ds) 5).
    - rewrite length_append_string, length_zeros. lia.
    - lia. }
  assert (Hdig : all_digits ds' = true).
  { unfold ds'. destruct (String.length ds <=? 5)%nat.
    - apply all_digits_append; [apply all_digits_zeros | apply digits_of_digits].
    - apply digits_of_digits. }
  exists (mant d <? 0), (take (String.length ds' - 5) ds'),
         (drop (String.length ds' - 5) ds').
  split; [reflexivity|]. repeat split.
  - rewrite length_drop. lia.
  - rewrite length_take; lia.
  - now apply all_digits_take.
  - now apply all_digits_drop.
Qed.

(** X1: for a map whose four bounds are finite numbers below 1e21 in
    absolute value, [getBBox] returns four comma-separated texts in the
    order south, west, north, east, each an optional minus sign, at least
    one digit, a point and exactly five digits. *)
Theorem getBBox_format (p : Page) :
  plain_number (south (bounds p)) -> plain_number (west (bounds p)) ->
  plain_number (north (bounds p)) -> plain_number (east (bounds p)) ->
  getBBox p
  = toFixed5 (south (bounds p)) ++ "," ++ toFixed5 (west (bounds p)) ++ ","
    ++ toFixed5 (north (bounds p)) ++ "," ++ toFixed5 (east (bounds p))
  /\ fixed5 (toFixed5 (south (bounds p))) /\ fixed5 (toFixed5 (west (bounds p)))
  /\ fixed5 (toFixed5 (north (bounds p))) /\ fixed5 (toFixed5 (east (bounds p))).
Proof.
  intros Hs Hw Hn He. split; [reflexivity|].
  repeat split; now apply toFixed5_format.
Qed.

Lemma getBBox_format_witness :
  getBBox all_ticked = "24.50000,-125.00000,49.50000,-66.93500"
  /\ fixed5 "24.50000" /\ fixed5 "-125.00000" /\ fixed5 "49.50000"
  /\ fixed5 "-66.93500".
Proof.
  apply (getBBox_format all_ticked);
    (eexists; split; [reflexivity | reflexivity]).
Defined.

(** ** The random-location button *)

Lemma Qfloor_bucket (x : Q) (i : Z) :
  (inject_Z i <= x)%Q -> (x < inject_Z (i + 1))%Q -> Qfloor x = i.
Proof.
  intros Hlo Hhi.
  pose proof (Qfloor_le x) as Hf. pose proof (Qlt_floor x) as Hf'.
  assert (H1 : Qfloor x < i + 1).
  { rewrite Zlt_Qlt. eapply Qle_lt_trans; eassumption. }
  assert (H2 : i < Qfloor x + 1).
  { rewrite Zlt_Qlt. eapply Qle_lt_trans; eassumption. }
  lia.
Qed.

(** X19: whatever [Math.random()] returns in [0, 1), the click handler of the
    random button finds a row of its table, so [pick[0]] never throws, and
    the view it sets is one of the eight listed places at zoom 9, 10 or 11. *)
Theorem randomClick_picks_listed_spot (random : Q) :
  (0 <= random)%Q -> (random < 1)%Q ->
  exists la lo zoom,
    randomClick random = Normal (la, lo, zoom)
    /\ In (la, lo, zoom) spots
    /\ (zoom = int 9 \/ zoom = int 10 \/ zoom = int 11).
Proof.
  intros H0 H1. unfold randomClick.
  change (inject_Z (Z.of_nat (List.length spots))) with 8%Q.
  set (i := Qfloor (random * 8)).
  assert (Hi : 0 <= i < 8).
  { unfold i. split.
    - change 0 with (Qfloor 0). apply Qfloor_resp_le.
      apply Qmult_le_0_compat; [exact H0 | discriminate].
    - rewrite Zlt_Qlt. eapply Qle_lt_trans; [apply Qfloor_le|].
      change (inject_Z 8) with (1 * 8)%Q.
      apply Qmult_lt_compat_r; [reflexivity | exact H1]. }
  assert (Hcases : i = 0 \/ i = 1 \/ i = 2 \/ i = 3 \/ i = 4 \/ i = 5
                   \/ i = 6 \/ i = 7) by lia.
  clearbody i.
  decompose [or] Hcases; subst i; cbn [Z.leb Z.compare Z.to_nat nth_error];
    do 3 eexists; (split; [reflexivity|]); split;
    try (cbn; tauto); cbn [In spots]; tauto.
Qed.

Lemma randomClick_picks_listed_spot_witness :
  exists la lo zoom,
    randomClick (7 # 10) = Normal (la, lo, zoom)
    /\ In (la, lo, zoom) spots
    /\ (zoom = int 9 \/ zoom = int 10 \/ zoom = int 11).
Proof.
  apply (randomClick_picks_listed_spot (7 # 10)); [discriminate | reflexivity].
Defined.

(** X20: the handler cuts [0, 1) into eight equal parts, one per row of the
    table in table order: a random value in [i/8, (i+1)/8) picks row [i],
    so every place can be picked and none is favoured. *)
Theorem randomClick_bucket (random : Q) (i : nat) :
  (i < 8)%nat ->
  (inject_Z (Z.of_nat i) <= random * 8)%Q ->
  (random * 8 < inject_Z (Z.of_nat i + 1))%Q ->
  exists pick, nth_error spots i = Some pick /\ randomClick random = Normal pick.
Proof.
  intros Hi Hlo Hhi. unfold randomClick.
  change (inject_Z (Z.of_nat (List.length spots))) with 8%Q.
  rewrite (Qfloor_bucket _ _ Hlo Hhi), Nat2Z.id.
  destruct (Z.leb_spec 0 (Z.of_nat i)); [|lia].
  destruct (nth_error spots i) as [pick|] eqn:Hn.
  - exists pick. auto.
  - apply nth_error_None in Hn. simpl in Hn. lia.
Qed.

Lemma randomClick_bucket_witness :
  exists pick,
    nth_error spots 6 = Some pick /\ randomClick (4 # 5) = Normal pick.
Proof.
  apply (randomClick_bucket (4 # 5) 6); [lia | discriminate | reflexivity].
Defined.

(** ** A load whose request fails *)

(** X4: when the request of a load fails (no response, a response that is
    not ok, or a body that does not parse), the load throws that error and
    the layer registry is exactly as before: no marker added or removed, no
    group attached or detached. Only the status line ("Loading ...") and
    the request log changed. *)
Theorem load_request_fails (env : Env) (p : Page) (k : ClusterKey) (e : JSError) :
  fst (fetchJSON env (request_url env p k) p) = Throw e ->
  load env k p
  = (Throw e,
     with_requests (requests p ++ [request_url env p k])
                   (with_status (loading_message k) p))
  /\ clusters (snd (load env k p)) = clusters p
  /\ mapLayers (snd (load env k p)) = mapLayers p
  /\ status (snd (load env k p)) = loading_message k.
Proof.
  intros Hf.
  assert (Hl : load env k p
               = (Throw e,
                  with_requests (requests p ++ [request_url env p k])
                                (with_status (loading_message k) p))).
  { rewrite load_eq, bind_eq.
    pose proof (fetchJSON_pure env (request_url env p k) p
                  (with_status (loading_message k) p)) as Hpure.
    pose proof (fetchJSON_page env (request_url env p k)
                  (with_status (loading_message k) p)) as Hpage.
    rewrite Hf in Hpure.
    destruct (fetchJSON env (request_url env p k)
                (with_status (loading_message k) p)) as [[gj|e'] q];
      simpl in *; [discriminate|].
    inversion Hpure; subst. reflexivity. }
  rewrite Hl. repeat split.
Qed.

Lemma load_request_fails_witness :
  load flaky starbucks all_ticked
  = (Throw (mkError EError "500 Internal Server Error"),
     with_requests
       (requests all_ticked ++ [request_url flaky all_ticked starbucks])
       (with_status (loading_message starbucks) all_ticked))
  /\ clusters (snd (load flaky starbucks all_ticked)) = clusters all_ticked
  /\ mapLayers (snd (load flaky starbucks all_ticked)) = mapLayers all_ticked
  /\ status (snd (load flaky starbucks all_ticked)) = loading_message starbucks.
Proof.
  apply (load_request_fails flaky all_ticked starbucks
           (mkError EError "500 Internal Server Error")).
  reflexivity.
Defined.

(** ** The layer registry *)


(** X3: [clearLayer] touches its own group only: every other group keeps its
    markers and its attachment, and the controls, the status line, the
    console and the request log are as before. An [ensureLayer] after it
    shows the group again, empty. *)
Theorem clearLayer_own_group_only (k : ClusterKey) (p : Page) :
  (forall j, j <> k ->
     get j (clusters (clearLayer k p)) = get j (clusters p)
     /\ get j (mapLayers (clearLayer k p)) = get j (mapLayers p))
  /\ same_inputs p (clearLayer k p)
  /\ status (clearLayer k p) = status p
  /\ console (clearLayer k p) = console p
  /\ requests (clearLayer k p) = requests p
  /\ get k (clusters (ensureLayer k (clearLayer k p))) = []
  /\ get k (mapLayers (ensureLayer k (clearLayer k p))) = true.
Proof.
  rewrite ensureLayer_clusters, clearLayer_eq. simpl.
  repeat split; try (now apply get_set_other).
  - apply get_set_same.
  - rewrite <- clearLayer_eq. apply ensureLayer_attached.
Qed.

(** ** Which features each path skips, and what it builds of the others *)

(** X9: the brand path skips a feature exactly when its geometry is missing
    (falsy) or has a type other than "Point"; every other feature either
    yields a marker or makes the callback throw. *)
Theorem pointMarker_skips_iff popupFn (f g : JSValue) :
  getProp f "geometry" = Normal g ->
  (pointMarker popupFn f = Normal None <-> not_a_point g).
Proof.
  intros Hg. split; [|now apply pointMarker_skips].
  unfold pointMarker, not_a_point. rewrite Hg; simpl.
  destruct (truthy g) eqn:Ht; simpl; [|now left].
  intros H. right.
  destruct (getProp g "type") as [t|e] eqn:Hty; simpl in H; [|discriminate].
  exists t. split; trivial.
  destruct (strict_ne_str t "Point"); trivial.
  destruct (getProp g "coordinates") as [c|]; simpl in H; [|discriminate].
  destruct (destructure2 c) as [[lo la]|]; simpl in H; [|discriminate].
  destruct popupFn as [fn|]; [|discriminate].
  destruct (fn f); simpl in H; discriminate.
Qed.

Lemma pointMarker_skips_iff_witness :
  pointMarker (Some brandPopup) line_quake = Normal None
  <-> not_a_point (JObj [("type", JStr "LineString");
                         ("coordinates",
                          JArr [JArr [JNum (dec (-11825) (-2)); JNum (dec 3405 (-2))];
                                JArr [JNum (dec (-1182) (-1)); JNum (dec 341 (-1))]])]).
Proof.
  apply (pointMarker_skips_iff (Some brandPopup) line_quake). reflexivity.
Defined.

(** X10: the seismic path skips a feature exactly when it finds no
    coordinates (no geometry, or a falsy [coordinates]); the geometry type
    plays no part. *)
Theorem quakeMarker_skips_iff (env : Env) (f g c : JSValue) :
  getProp f "geometry" = Normal g -> optProp g "coordinates" = Normal c ->
  (quakeMarker env f = Normal None <-> truthy c = false).
Proof.
  intros Hg Hc. split; [|now apply (quakeMarker_skips env f g c)].
  unfold quakeMarker. rewrite Hg; simpl. rewrite Hc; simpl.
  destruct (truthy c); simpl; trivial. intros H.
  destruct (destructure2 c) as [[lo la]|]; simpl in H; [|discriminate].
  destruct (getProp f "properties") as [props|]; simpl in H; [|discriminate].
  destruct (quakeMag props) as [mag|]; simpl in H; [|discriminate].
  destruct (quakePlace props) as [place|]; simpl in H; [|discriminate].
  destruct (quakeTime env props) as [time|]; simpl in H; [|discriminate].
  destruct (quakeRadius mag) as [r|]; simpl in H; [|discriminate].
  destruct (ToString mag) as [smag|]; simpl in H; [|discriminate].
  destruct (ToString place) as [splace|]; simpl in H; discriminate.
Qed.

Lemma quakeMarker_skips_iff_witness :
  quakeMarker sample_env (feature JNull [("mag", JNum (int 3))]) = Normal None
  <-> truthy JUndefined = false.
Proof.
  apply (quakeMarker_skips_iff sample_env
           (feature JNull [("mag", JNum (int 3))]) JNull JUndefined);
    reflexivity.
Defined.

(** X11: a feature list in which no feature has a point geometry leaves the
    page untouched on the brand path, and is no error. *)
Theorem brand_path_adds_nothing (gj : JSValue) (k : ClusterKey)
    (features : list JSValue) (p : Page) :
  getProp gj "features" = Normal (JArr features) ->
  (forall f, In f features ->
     exists g, getProp f "geometry" = Normal g /\ not_a_point g) ->
  addGeoJSONPointsToCluster gj k (Some brandPopup) p = (Normal tt, p).
Proof. apply brand_path_skips. Qed.

Lemma brand_path_adds_nothing_witness :
  addGeoJSONPointsToCluster
    (JObj [("features", JArr [line_quake; feature JNull []])])
    dg (Some brandPopup) all_ticked
  = (Normal tt, all_ticked).
Proof.
  apply (brand_path_adds_nothing
           (JObj [("features", JArr [line_quake; feature JNull []])])
           dg [line_quake; feature JNull []] all_ticked).
  - reflexivity.
  - intros f [<-|[<-|[]]].
    + eexists. split; [reflexivity|]. right. eexists. split; reflexivity.
    + eexists. split; [reflexivity|]. now left.
Defined.

(** X12: on the brand path a point feature whose first two coordinates are
    finite numbers (and whose numbers are short decimals) becomes a plain
    marker placed at (latitude, longitude), that is with the two GeoJSON
    coordinates swapped and any further coordinate ignored, and its popup
    is the name and the id as received, with no escaping. *)
Theorem brand_marker_of_point (f g props id0 : JSValue) (a b : Dec)
    (rest : list JSValue) (name sid : string) :
  short_numbers f = true ->
  getProp f "geometry" = Normal g ->
  getProp g "type" = Normal (JStr "Point") ->
  getProp g "coordinates"
  = Normal (JArr (JNum (Fin a) :: JNum (Fin b) :: rest)) ->
  getProp f "properties" = Normal props ->
  optProp props "name" = Normal (JStr name) -> name <> "" ->
  optProp props "id" = Normal id0 ->
  ToString (js_or id0 (JStr "")) = Normal sid ->
  pointMarker (Some brandPopup) f
  = Normal (Some (mkMarker Pin (JNum (Fin b)) (JNum (Fin a))
                    (Some ("<b>" ++ name ++ "</b><br><small>" ++ sid
                           ++ "</small>")))).
Proof.
  intros _ Hg Ht Hc Hp Hn Hne Hi Hs.
  unfold pointMarker. rewrite Hg; simpl.
  assert (Htr : truthy g = true).
  { destruct g; simpl in Ht; try discriminate; trivial. }
  rewrite Htr, Ht; simpl. rewrite Hc; simpl.
  unfold brandPopup. rewrite Hp; simpl. rewrite Hn; simpl.
  unfold js_or at 1. simpl.
  destruct (String.eqb_spec name ""); [contradiction|]. simpl.
  rewrite Hi; simpl. rewrite Hs. reflexivity.
Qed.

Lemma brand_marker_of_point_witness :
  pointMarker (Some brandPopup)
    (feature (JObj [("type", JStr "Point");
                    ("coordinates", JArr [JNum (dec (-11825) (-2));
                                          JNum (dec 3405 (-2)); JNum (int 71)])])
             [("name", JStr "<i>Main St</i>"); ("id", JNum (int 42))])
  = Normal (Some (mkMarker Pin (JNum (dec 3405 (-2))) (JNum (dec (-11825) (-2)))
                    (Some "<b><i>Main St</i></b><br><small>42</small>"))).
Proof.
  apply (brand_marker_of_point _
           (JObj [("type", JStr "Point");
                  ("coordinates", JArr [JNum (dec (-11825) (-2));
                                        JNum (dec 3405 (-2)); JNum (int 71)])])
           (JObj [("name", JStr "<i>Main St</i>"); ("id", JNum (int 42))])
           (JNum (int 42)) (mkDec (-11825) (-2)) (mkDec 3405 (-2))
           [JNum (int 71)] "<i>Main St</i>" "42");
    try reflexivity.
  discriminate.
Defined.

(** ** The marker of a quake *)

Local Open Scope Q_scope.

(** X13: for every magnitude that is a finite number, the radius of the
    circle is twice the magnitude clamped to [4, 16], so it always lies in
    that range. *)
Theorem quake_radius_of_number (d : Dec) :
  exists r, quakeRadius (JNum (Fin d)) = Normal (Fin r)
            /\ Dval r == Qmax 4 (Qmin 16 (Dval d * 2))
            /\ 4 <= Dval r <= 16.
Proof. exact (quakeRadius_number d). Qed.

(** X14: among numeric magnitudes the radius never decreases when the
    magnitude grows. *)
Theorem quake_radius_grows_with_magnitude (d1 d2 r1 r2 : Dec) :
  Dval d1 <= Dval d2 ->
  quakeRadius (JNum (Fin d1)) = Normal (Fin r1) ->
  quakeRadius (JNum (Fin d2)) = Normal (Fin r2) ->
  Dval r1 <= Dval r2.
Proof. exact (quakeRadius_monotone d1 d2 r1 r2). Qed.

Lemma quake_radius_grows_with_magnitude_witness :
  Dval (mkDec 62 (-1)) <= Dval (mkDec 1 1).
Proof.
  apply (quake_radius_grows_with_magnitude
           (mkDec 31 (-1)) (mkDec 5 0) (mkDec 62 (-1)) (mkDec 1 1));
    [discriminate | reflexivity | reflexivity].
Defined.

(** X15: a well-formed event of the seismic feed (an array of coordinates
    that starts with two finite numbers, a numeric magnitude, a place text
    and a truthy time the locale can format, all numbers being short
    decimals) becomes one circle marker of weight 1 and fill opacity 0.6,
    placed at (latitude, longitude) with the depth ignored, whose radius is
    twice the magnitude clamped to [4, 16] and whose popup shows the
    magnitude as printed, the place and the formatted time. *)
Theorem quake_marker_of_event (env : Env) (f g props t : JSValue) (a b : Dec)
    (rest : list JSValue) (d : Dec) (place stime : string) :
  short_numbers f = true ->
  getProp f "geometry" = Normal g ->
  optProp g "coordinates"
  = Normal (JArr (JNum (Fin a) :: JNum (Fin b) :: rest)) ->
  getProp f "properties" = Normal props ->
  optProp props "mag" = Normal (JNum (Fin d)) ->
  optProp props "place" = Normal (JStr place) ->
  optProp props "time" = Normal t -> truthy t = true ->
  dateToLocaleString env t = Normal stime ->
  exists r,
    quakeMarker env f
    = Normal (Some (mkMarker (Circle (Fin r) (int 1) (dec 6 (-1)))
                      (JNum (Fin b)) (JNum (Fin a))
                      (Some ("<b>M " ++ NumberToString (Fin d) ++ "</b><br>"
                             ++ place ++ "<br><small>" ++ stime
                             ++ "</small>")%string)))
    /\ Dval r == Qmax 4 (Qmin 16 (Dval d * 2))
    /\ 4 <= Dval r <= 16.
Proof.
  intros _ Hg Hc Hp Hm Hpl Ht Htr Hd.
  set (x := JNum (Fin a)) in *. set (y := JNum (Fin b)) in *.
  destruct (quakeRadius_number d) as (r & Hr & Hv & Hb).
  exists r. split; [|split; assumption].
  unfold quakeMarker. rewrite Hg; simpl. rewrite Hc; simpl.
  rewrite Hp; simpl.
  unfold quakeMag, quakePlace, quakeTime.
  rewrite Hm; simpl. rewrite Hpl; simpl. rewrite Ht; simpl.
  rewrite Htr, Hd; simpl.
  change (cbind (quakeRadius (JNum (Fin d))) (fun radius =>
            Normal (Some (mkMarker (Circle radius (int 1) (dec 6 (-1))) y x
                            (Some ("<b>M " ++ NumberToString (Fin d) ++ "</b><br>"
                                   ++ place ++ "<br><small>" ++ stime
                                   ++ "</small>")%string))))
          = Normal (Some (mkMarker (Circle (Fin r) (int 1) (dec 6 (-1))) y x
                            (Some ("<b>M " ++ NumberToString (Fin d) ++ "</b><br>"
                                   ++ place ++ "<br><small>" ++ stime
                                   ++ "</small>")%string)))).
  now rewrite Hr.
Qed.

Lemma quake_marker_of_event_witness :
  exists r,
    quakeMarker sample_env
      (feature (JObj [("type", JStr "Point");
                      ("coordinates", JArr [JNum (dec (-11768) (-2));
                                            JNum (dec 3562 (-2));
                                            JNum (dec 84 (-1))])])
               [("mag", JNum (dec 71 (-1)));
                ("place", JStr "10km NE of Ridgecrest, CA");
                ("time", JNum (int 1562383193040))])
    = Normal (Some (mkMarker (Circle (Fin r) (int 1) (dec 6 (-1)))
                      (JNum (dec 3562 (-2))) (JNum (dec (-11768) (-2)))
                      (Some ("<b>M " ++ NumberToString (Fin (mkDec 71 (-1)))
                             ++ "</b><br>" ++ "10km NE of Ridgecrest, CA"
                             ++ "<br><small>" ++ "1/1/1970, 12:00:00 AM"
                             ++ "</small>")%string)))
    /\ Dval r == Qmax 4 (Qmin 16 (Dval (mkDec 71 (-1)) * 2))
    /\ 4 <= Dval r <= 16.
Proof.
  apply (quake_marker_of_event sample_env _
           (JObj [("type", JStr "Point");
                  ("coordinates", JArr [JNum (dec (-11768) (-2));
                                        JNum (dec 3562 (-2));
                                        JNum (dec 84 (-1))])])
           (JObj [("mag", JNum (dec 71 (-1)));
                  ("place", JStr "10km NE of Ridgecrest, CA");
                  ("time", JNum (int 1562383193040))])
           (JNum (int 1562383193040)) (mkDec (-11768) (-2)) (mkDec 3562 (-2))
           [JNum (dec 84 (-1))]
           (mkDec 71 (-1)) "10km NE of Ridgecrest, CA" "1/1/1970, 12:00:00 AM");
    reflexivity.
Defined.

Local Close Scope Q_scope.

(** ** Numbers typed into the two inputs *)

Lemma digit_is_no_space c : is_dec_digit c = true -> is_space c = false.
Proof.
  unfold is_dec_digit, is_space. intros H.
  apply andb_true_iff in H as [H1 H2].
  apply Nat.leb_le in H1. apply Nat.leb_le in H2.
  apply orb_false_iff. split.
  - apply andb_false_iff. right. apply Nat.leb_gt. lia.
  - apply Nat.eqb_neq. lia.
Qed.

Lemma all_digits_chars s :
  all_digits s = true -> Forall (fun c => is_dec_digit c = true) (list_ascii_of_string s).
Proof.
  induction s as [|c s IH]; simpl; intros H; constructor;
    apply andb_true_iff in H as [Hc Hs]; auto.
Qed.

Lemma drop_spaces_digit c l :
  is_dec_digit c = true -> drop_spaces (c :: l) = c :: l.
Proof. intros H. simpl. now rewrite (digit_is_no_space c H). Qed.

(** White space is only stripped: a text of digits is read as it is. *)
Lemma trim_digits l :
  Forall (fun c => is_dec_digit c = true) l -> trim l = l.
Proof.
  intros H. unfold trim. destruct l as [|c l]; [reflexivity|].
  inversion H as [|? ? Hc Hl]; subst.
  rewrite (drop_spaces_digit c l Hc).
  assert (Hr : Forall (fun c => is_dec_digit c = true) (rev (c :: l)))
    by (apply Forall_rev; exact H).
  destruct (rev (c :: l)) as [|c' l'] eqn:E.
  - apply (f_equal (@List.length ascii)) in E. rewrite length_rev in E. discriminate.
  - inversion Hr as [|? ? Hc' _]; subst.
    rewrite (drop_spaces_digit c' l' Hc'), <- E. apply rev_involutive.
Qed.

Lemma span_digits_uint (d : Decimal.uint) :
  span_digits 10 (list_ascii_of_string (NilEmpty.string_of_uint d))
  = (list_ascii_of_string (NilEmpty.string_of_uint d), []).
Proof. induction d; simpl; trivial; now rewrite IHd. Qed.

Lemma read_digits_acc (d : Decimal.uint) :
  forall acc : positive,
    fold_left read_digit (list_ascii_of_string (NilEmpty.string_of_uint d)) (Zpos acc)
    = Zpos (Pos.of_uint_acc d acc).
Proof.
  induction d; intros acc; cbn [NilEmpty.string_of_uint list_ascii_of_string fold_left
                                Pos.of_uint_acc]; trivial;
    rewrite <- IHd; f_equal;
    match goal with
    | |- read_digit ?a ?c = _ =>
        let v := eval cbv in (digit_val c) in
        change (read_digit a c)
          with (a * 10 + match v with Some x => x | None => 0 end)
    end; cbv beta iota; lia.
Qed.

Lemma digits_value_uint (d : Decimal.uint) :
  digits_value 10 (list_ascii_of_string (NilEmpty.string_of_uint d))
  = Z.of_N (Pos.of_uint d).
Proof.
  unfold digits_value. change (fun acc c => acc * 10 + _) with read_digit.
  induction d; simpl; trivial;
    try (change (read_digit 0 _) with 0; exact IHd);
    match goal with
    | |- fold_left read_digit _ (read_digit 0 ?c) = _ =>
        let v := eval compute in (read_digit 0 c) in
        change (read_digit 0 c) with v
    end; apply read_digits_acc.
Qed.

Lemma uint_not_infinity (d : Decimal.uint) :
  list_ascii_of_string (NilEmpty.string_of_uint d)
  <> list_ascii_of_string "Infinity".
Proof.
  intros E. apply (f_equal string_of_list_ascii) in E.
  rewrite !string_of_list_ascii_of_string in E.
  pose proof (all_digits_uint d) as H. rewrite E in H. discriminate.
Qed.

Lemma unsigned_decimal_uint (d : Decimal.uint) :
  d <> Decimal.Nil ->
  unsigned_decimal false (list_ascii_of_string (NilEmpty.string_of_uint d))
  = int (Z.of_N (Pos.of_uint d)).
Proof.
  intros Hd. unfold unsigned_decimal.
  destruct (list_eq_dec ascii_dec _ _) as [E|_];
    [now apply uint_not_infinity in E|].
  rewrite span_digits_uint, app_nil_r.
  destruct (list_ascii_of_string (NilEmpty.string_of_uint d)) as [|c l] eqn:El.
  - destruct d; try contradiction; discriminate.
  - rewrite <- El, digits_value_uint. reflexivity.
Qed.

Lemma StringToNumber_uint (d : Decimal.uint) :
  d <> Decimal.Nil ->
  StringToNumber (NilEmpty.string_of_uint d) = int (Z.of_N (Pos.of_uint d)).
Proof.
  intros Hd. rewrite <- (unsigned_decimal_uint d Hd). unfold StringToNumber.
  rewrite trim_digits by (apply all_digits_chars, all_digits_uint).
  destruct d as [|d|d|d|d|d|d|d|d|d|d]; try contradiction; try reflexivity.
  destruct d; reflexivity.
Qed.

Lemma to_uint_nonnil (n : N) : N.to_uint n <> Decimal.Nil.
Proof.
  destruct n; simpl; [discriminate | apply DecimalPos.Unsigned.to_uint_nonnil].
Qed.

Lemma digits_of_uint n :
  digits_of n = NilEmpty.string_of_uint (N.to_uint (Z.to_N n)).
Proof.
  unfold digits_of, NilZero.string_of_uint.
  pose proof (to_uint_nonnil (Z.to_N n)).
  destruct (N.to_uint (Z.to_N n)); trivial. contradiction.
Qed.

(** Reading back the decimal digits of a natural number gives the number. *)
Lemma StringToNumber_digits_of n :
  0 <= n -> StringToNumber (digits_of n) = int n.
Proof.
  intros Hn. rewrite digits_of_uint, StringToNumber_uint by apply to_uint_nonnil.
  change (Pos.of_uint (N.to_uint (Z.to_N n))) with (N.of_uint (N.to_uint (Z.to_N n))).
  now rewrite DecimalN.Unsigned.of_to, Z2N.id.
Qed.

Lemma strip_zeros_int (fuel : nat) :
  forall m e, 0 < m ->
    0 < mant (strip_zeros fuel m e)
    /\ e <= expo (strip_zeros fuel m e)
    /\ mant (strip_zeros fuel m e) * 10 ^ (expo (strip_zeros fuel m e) - e) = m.
Proof.
  induction fuel as [|fuel IH]; intros m e Hm; cbn [strip_zeros].
  - cbn [mant expo]. rewrite Z.sub_diag. cbn. lia.
  - destruct (Z.eqb_spec m 0) as [->|_]; [lia|].
    destruct (Z.eqb_spec (m mod 10) 0) as [H0|_].
    + apply Z.div_exact in H0; [|discriminate].
      destruct (IH (m / 10) (e + 1)) as (Hpos & He & Hv); [lia|].
      split; [exact Hpos|]. split; [lia|].
      replace (expo (strip_zeros fuel (m / 10) (e + 1)) - e)
        with (Z.succ (expo (strip_zeros fuel (m / 10) (e + 1)) - (e + 1))) by lia.
      rewrite Z.pow_succ_r by lia. lia.
    + cbn [mant expo]. rewrite Z.sub_diag. cbn. lia.
Qed.

Lemma norm_fixed (r : Dec) : mant r mod 10 <> 0 -> norm r = r.
Proof.
  intros H. unfold norm. cbn [strip_zeros].
  destruct (Z.eqb_spec (mant r) 0) as [E|_]; [rewrite E in H; now cbn in H|].
  destruct (Z.eqb_spec (mant r mod 10) 0); [contradiction|]. now destruct r.
Qed.

Lemma append_nil_r (s : string) : s ++ "" = s.
Proof. induction s; simpl; congruence. Qed.

Lemma append_assoc_string (s t u : string) : (s ++ t) ++ u = s ++ t ++ u.
Proof. induction s; simpl; congruence. Qed.

Lemma of_uint_acc_snoc0 (d : Decimal.uint) :
  forall acc, Pos.of_uint_acc (snoc0 d) acc = (10 * Pos.of_uint_acc d acc)%positive.
Proof. induction d; intros acc; simpl; trivial. Qed.

Lemma of_uint_snoc0 (d : Decimal.uint) :
  Pos.of_uint (snoc0 d) = (10 * Pos.of_uint d)%N.
Proof.
  induction d; simpl; trivial; now rewrite of_uint_acc_snoc0.
Qed.

Lemma nzhead_snoc0 (d : Decimal.uint) :
  Decimal.nzhead d <> Decimal.Nil ->
  Decimal.nzhead (snoc0 d) = snoc0 (Decimal.nzhead d).
Proof. induction d; simpl; trivial. intros H. now destruct H. Qed.

Lemma snoc0_nonnil (d : Decimal.uint) : snoc0 d <> Decimal.Nil.
Proof. destruct d; discriminate. Qed.

Lemma string_of_uint_snoc0 (d : Decimal.uint) :
  NilEmpty.string_of_uint (snoc0 d) = NilEmpty.string_of_uint d ++ "0".
Proof. induction d; simpl; congruence. Qed.

Lemma to_uint_times10 (n : N) :
  (0 < n)%N -> N.to_uint (10 * n) = snoc0 (N.to_uint n).
Proof.
  intros Hn. set (d := N.to_uint n).
  assert (Hof : N.of_uint d = n) by apply DecimalN.Unsigned.of_to.
  assert (Hun : Decimal.unorm d = d).
  { rewrite <- (DecimalN.Unsigned.to_of d), Hof. reflexivity. }
  assert (Hnz : Decimal.nzhead d <> Decimal.Nil).
  { intros H. apply DecimalFacts.unorm_0 in H. rewrite Hun in H.
    unfold d in H. destruct n as [|p]; [lia|].
    now apply DecimalPos.Unsigned.to_uint_nonzero in H. }
  assert (Hhead : Decimal.nzhead d = d)
    by (rewrite <- (DecimalFacts.unorm_nzhead d Hnz); exact Hun).
  replace (10 * n)%N with (N.of_uint (snoc0 d))
    by (unfold N.of_uint; rewrite of_uint_snoc0; fold (N.of_uint d); now rewrite Hof).
  rewrite DecimalN.Unsigned.to_of.
  rewrite DecimalFacts.unorm_nzhead;
    rewrite (nzhead_snoc0 d Hnz), Hhead; [reflexivity | apply snoc0_nonnil].
Qed.

Lemma digits_of_times10 (x : Z) : 0 < x -> digits_of (x * 10) = digits_of x ++ "0".
Proof.
  intros Hx. rewrite !digits_of_uint.
  replace (Z.to_N (x * 10)) with (10 * Z.to_N x)%N by lia.
  rewrite to_uint_times10 by lia. apply string_of_uint_snoc0.
Qed.

Lemma digits_of_shift (k : nat) :
  forall x, 0 < x -> digits_of (x * 10 ^ Z.of_nat k) = digits_of x ++ zeros k.
Proof.
  induction k as [|k IH]; intros x Hx.
  - cbn [Z.of_nat zeros]. rewrite Z.pow_0_r, Z.mul_1_r. symmetry. apply append_nil_r.
  - rewrite Nat2Z.inj_succ, Z.pow_succ_r by lia.
    replace (x * (10 * 10 ^ Z.of_nat k)) with (x * 10 * 10 ^ Z.of_nat k) by lia.
    rewrite IH by lia. rewrite digits_of_times10 by lia.
    cbn [zeros]. now rewrite append_assoc_string.
Qed.

(** Printing a natural number of at most 21 digits gives its digits. *)
Lemma NumberToString_int n :
  0 <= n -> (String.length (digits_of n) <= 21)%nat ->
  NumberToString (int n) = digits_of n.
Proof.
  intros Hn Hlen. destruct (Z.eq_dec n 0) as [->|Hne]; [reflexivity|].
  unfold int, dec. set (r := norm (mkDec n 0)).
  assert (Hr : 0 < mant r /\ 0 <= expo r /\ mant r * 10 ^ (expo r - 0) = n)
    by (unfold r, norm; cbn [mant expo]; apply strip_zeros_int; lia).
  destruct Hr as (Hpos & He & Hv). rewrite Z.sub_0_r in Hv.
  assert (Hcanon : mant r mod 10 <> 0).
  { destruct (norm_canonical (mkDec n 0)) as [H|H]; fold r in H; [lia|exact H]. }
  unfold NumberToString. rewrite (norm_fixed r Hcanon).
  destruct (Z.eqb_spec (mant r) 0); [lia|].
  destruct (Z.ltb_spec (mant r) 0); [lia|].
  assert (Hd : digits_of n = digits_of (mant r) ++ zeros (Z.to_nat (expo r))).
  { rewrite <- Hv at 1. rewrite <- (Z2Nat.id (expo r)) at 1 by lia.
    now apply digits_of_shift. }
  rewrite Hd in Hlen. rewrite length_append_string, length_zeros in Hlen.
  unfold pos_to_string.
  set (k := Z.of_nat (String.length (digits_of (mant r)))) in *.
  replace ((k <=? expo r + k) && (expo r + k <=? 21)) with true
    by (symmetry; apply andb_true_iff; split; apply Z.leb_le; lia).
  rewrite Hd. do 2 f_equal. lia.
Qed.

Lemma of_uint_acc_lower (d : Decimal.uint) :
  forall acc : positive,
    Zpos acc * 10 ^ Z.of_nat (Decimal.nb_digits d) <= Zpos (Pos.of_uint_acc d acc).
Proof.
  induction d; intros acc;
    cbn [Decimal.nb_digits Pos.of_uint_acc]; [cbn; lia|..];
    rewrite Nat2Z.inj_succ, Z.pow_succ_r by lia;
    (eapply Z.le_trans; [|apply IHd]);
    (assert (Hp : 0 < 10 ^ Z.of_nat (Decimal.nb_digits d))
       by (apply Z.pow_pos_nonneg; lia)); nia.
Qed.

Lemma of_uint_lower (d : Decimal.uint) :
  Decimal.nzhead d = d -> d <> Decimal.Nil ->
  10 ^ (Z.of_nat (Decimal.nb_digits d) - 1) <= Z.of_N (Pos.of_uint d).
Proof.
  intros Hh Hn. destruct d; try contradiction;
    [pose proof (DecimalFacts.nb_digits_nzhead d) as H; cbn [Decimal.nzhead] in Hh;
     rewrite Hh in H; cbn [Decimal.nb_digits] in H; lia|..];
    cbn [Decimal.nb_digits Pos.of_uint];
    rewrite Nat2Z.inj_succ;
    replace (Z.succ (Z.of_nat (Decimal.nb_digits d)) - 1)
      with (Z.of_nat (Decimal.nb_digits d)) by lia;
    (eapply Z.le_trans; [|apply of_uint_acc_lower]); lia.
Qed.

Lemma length_string_of_uint (d : Decimal.uint) :
  String.length (NilEmpty.string_of_uint d) = Decimal.nb_digits d.
Proof. induction d; simpl; congruence. Qed.

(** A natural number below [10 ^ k] has at most [k] digits. *)
Lemma digits_of_length (n : Z) (k : nat) :
  0 <= n < 10 ^ Z.of_nat k -> (1 <= k)%nat ->
  (String.length (digits_of n) <= k)%nat.
Proof.
  intros [H0 Hk] H1. destruct (Z.eq_dec n 0) as [->|Hne]; [exact H1|].
  rewrite digits_of_uint, length_string_of_uint.
  set (d := N.to_uint (Z.to_N n)).
  assert (Hof : N.of_uint d = Z.to_N n) by apply DecimalN.Unsigned.of_to.
  assert (Hun : Decimal.unorm d = d).
  { rewrite <- (DecimalN.Unsigned.to_of d), Hof. reflexivity. }
  assert (Hnz : Decimal.nzhead d <> Decimal.Nil).
  { intros H. apply DecimalFacts.unorm_0 in H. rewrite Hun in H.
    unfold d in H. destruct (Z.to_N n) as [|q] eqn:E; [lia|].
    now apply DecimalPos.Unsigned.to_uint_nonzero in H. }
  assert (Hhead : Decimal.nzhead d = d)
    by (rewrite <- (DecimalFacts.unorm_nzhead d Hnz); exact Hun).
  pose proof (of_uint_lower d Hhead (to_uint_nonnil _)) as Hl.
  change (Pos.of_uint d) with (N.of_uint d) in Hl.
  rewrite Hof, Z2N.id in Hl by lia.
  assert (Hlt : Z.of_nat (Decimal.nb_digits d) - 1 < Z.of_nat k)
    by (apply (Z.pow_lt_mono_r_iff 10); lia).
  lia.
Qed.

Lemma safe_integer_digits (n : Z) :
  0 <= n <= MAX_SAFE_INTEGER -> (String.length (digits_of n) <= 21)%nat.
Proof.
  intros H. apply digits_of_length; [|lia].
  unfold MAX_SAFE_INTEGER in H. change (Z.of_nat 21) with 21. lia.
Qed.

(** X21: a natural number up to [Number.MAX_SAFE_INTEGER], typed into the
    hours box or the magnitude box in plain decimal digits, reaches the
    query unchanged: the url carries exactly the text that was typed, the
    default is not used and nothing is rounded or reformatted. *)
Theorem quake_query_echoes_naturals (env : Env) (p : Page) (h m : Z) :
  0 <= h <= MAX_SAFE_INTEGER -> 0 <= m <= MAX_SAFE_INTEGER ->
  qHours p = digits_of h -> qMinMag p = digits_of m ->
  numberOr (qHours p) (int 24) = Normal (int h)
  /\ numberOr (qMinMag p) (dec 25 (-1)) = Normal (int m)
  /\ requests (snd (loadQuakes env p))
     = List.app (requests p)
         [API env ++ "/api/usgs/quakes?hours=" ++ qHours p
          ++ "&minmag=" ++ qMinMag p ++ "&bbox=" ++ getBBox p].
Proof.
  intros Hhs Hms Eh Em.
  pose proof (safe_integer_digits h Hhs) as Lh.
  pose proof (safe_integer_digits m Hms) as Lm.
  destruct Hhs as [Hh _]. destruct Hms as [Hm _].
  assert (Hno : forall n d, 0 <= n -> effectiveNumber (digits_of n) d = int n).
  { intros n d H0. unfold effectiveNumber.
    destruct (String.eqb_spec (digits_of n) "") as [E|_].
    - pose proof (digits_of_nonempty n) as Hl. rewrite E in Hl. simpl in Hl. lia.
    - now apply StringToNumber_digits_of. }
  rewrite !numberOr_eq, Eh, Em, !Hno by assumption.
  split; [reflexivity|]. split; [reflexivity|].
  change (loadQuakes env p) with (load env quakes p).
  destruct (load_effect env quakes p) as (_ & _ & -> & _).
  unfold request_url, quake_url. rewrite Eh, Em, !Hno by assumption.
  now rewrite !NumberToString_int by assumption.
Qed.

Lemma quake_query_echoes_naturals_witness :
  requests (snd (loadQuakes sample_env (typed_page "48" "3")))
  = ["http://localhost:8088/api/usgs/quakes?hours=48&minmag=3&bbox=24.50000,-125.00000,49.50000,-66.93500"].
Proof.
  apply (quake_query_echoes_naturals sample_env (typed_page "48" "3") 48 3);
    try reflexivity; unfold MAX_SAFE_INTEGER; lia.
Defined.
